(** * ufw-controller: a shallow embedding of [UFWController] (main.js)

    The class wraps the [ufw] command line tool.  Every method builds a
    command line, hands it to [child_process.exec] through [runCommand] and
    looks at the text that comes back.  The embedding keeps that shape:

    - JavaScript strings are sequences of UTF-16 code units;
    - the operating system (the firewall, the file system) is an abstract
      world, reached only through [exec] and [readFileSync];
    - an [async] method is a state-and-rejection computation over that world
      which also records every command line handed to [exec]. *)

From Stdlib Require Import List NArith Bool String Ascii Lia.
From Stdlib Require DecimalN.
Import ListNotations.

Set Implicit Arguments.

(** ** JavaScript strings *)

(** A string value is its sequence of UTF-16 code units. *)
Definition jsstring := list N.

(** A string literal of the source (all of them are plain ASCII). *)
Definition js (s : string) : jsstring :=
  map N_of_ascii (list_ascii_of_string s).

(** The one-code-unit string ['\n']. *)
Definition LF : N := 10%N.

(** Truthiness of a string: every string but [''] is truthy. *)
Definition truthy (s : jsstring) : bool :=
  match s with
  | [] => false
  | _ :: _ => true
  end.

(** [s.startsWith(p)]. *)
Fixpoint startsWith (s p : jsstring) {struct p} : bool :=
  match p, s with
  | [], _ => true
  | _ :: _, [] => false
  | c :: p', d :: s' => N.eqb c d && startsWith s' p'
  end.

(** [s.includes(sub)]: [sub] occurs in [s] as a run of consecutive code
    units. *)
Fixpoint includes (s sub : jsstring) : bool :=
  startsWith s sub ||
  match s with
  | [] => false
  | _ :: s' => includes s' sub
  end.

(** The code units [String.prototype.trim] strips: ECMAScript's WhiteSpace
    (TAB, VT, FF, SP, NBSP, ZWNBSP and the Unicode space separators) and
    LineTerminator (LF, CR, LS, PS). *)
Definition whitespace_codes : list N :=
  [ 9; 10; 11; 12; 13; 32; 160; 5760;
    8192; 8193; 8194; 8195; 8196; 8197; 8198; 8199; 8200; 8201; 8202;
    8232; 8233; 8239; 8287; 12288; 65279 ]%N.

Definition isWhiteSpace (c : N) : bool :=
  existsb (N.eqb c) whitespace_codes.

Fixpoint trimStart (s : jsstring) : jsstring :=
  match s with
  | [] => []
  | c :: s' => if isWhiteSpace c then trimStart s' else s
  end.

Definition trimEnd (s : jsstring) : jsstring :=
  rev (trimStart (rev s)).

(** [s.trim()]. *)
Definition trim (s : jsstring) : jsstring :=
  trimEnd (trimStart s).

(** [s.split(sep)] for a separator of one code unit: the pieces between the
    occurrences of [sep]; a string without [sep] (the empty one too) gives
    one piece. *)
Fixpoint split (sep : N) (s : jsstring) : list jsstring :=
  match s with
  | [] => [[]]
  | c :: s' =>
      if N.eqb c sep then [] :: split sep s'
      else match split sep s' with
           | piece :: pieces => (c :: piece) :: pieces
           | [] => [[c]]
           end
  end.

(** [lines.join(sep)], the text a list of lines comes from. *)
Fixpoint join (sep : N) (lines : list jsstring) : jsstring :=
  match lines with
  | [] => []
  | [l] => l
  | l :: ls => l ++ sep :: join sep ls
  end.

(** The decimal digits of a [Decimal.uint], as code units. *)
Fixpoint digits (u : Decimal.uint) : jsstring :=
  match u with
  | Decimal.Nil => []
  | Decimal.D0 u' => 48%N :: digits u'
  | Decimal.D1 u' => 49%N :: digits u'
  | Decimal.D2 u' => 50%N :: digits u'
  | Decimal.D3 u' => 51%N :: digits u'
  | Decimal.D4 u' => 52%N :: digits u'
  | Decimal.D5 u' => 53%N :: digits u'
  | Decimal.D6 u' => 54%N :: digits u'
  | Decimal.D7 u' => 55%N :: digits u'
  | Decimal.D8 u' => 56%N :: digits u'
  | Decimal.D9 u' => 57%N :: digits u'
  end.

(** The [portOrService] argument, documented as [string|number].  [Num n] is
    the Number whose value is the non-negative integer [n]; port numbers are
    far below 2^53 and 10^21, the range in which a Number holds [n] exactly
    and prints it in plain decimal. *)
Inductive portOrService : Type :=
| Num (n : N)
| Str (s : jsstring).

(** What [`${portOrService}`] puts into a template literal. *)
Definition toString (t : portOrService) : jsstring :=
  match t with
  | Num n => digits (N.to_uint n)
  | Str s => s
  end.

(** A parameter declared [name = '']: an omitted (or [undefined]) argument
    takes the default. *)
Definition orDefault (arg : option jsstring) : jsstring :=
  match arg with
  | Some s => s
  | None => []
  end.

(** ** Canonical rule rendering *)

(** The rule string of [allow], [deny] and [reject] (the template literal
    on their first line). *)
Definition portRule (t : portOrService) (protocol : option jsstring) : jsstring :=
  let protocol := orDefault protocol in
  toString t ++ (if truthy protocol then js "/" ++ protocol else js "").

(** The rule string of [allowFromIp] and [denyFromIp]. *)
Definition ipRule (ip : jsstring) (port protocol : option jsstring) : jsstring :=
  let port := orDefault port in
  let protocol := orDefault protocol in
  js "from " ++ ip
  ++ (if truthy port then js " to any port " ++ port else js "")
  ++ (if truthy protocol then js " proto " ++ protocol else js "").

(** A call of one of the five rule-adding methods. *)
Inductive request : Type :=
| Allow (t : portOrService) (protocol : option jsstring)
| Deny (t : portOrService) (protocol : option jsstring)
| Reject (t : portOrService) (protocol : option jsstring)
| AllowFromIp (ip : jsstring) (port protocol : option jsstring)
| DenyFromIp (ip : jsstring) (port protocol : option jsstring).

Definition ruleOf (q : request) : jsstring :=
  match q with
  | Allow t p | Deny t p | Reject t p => portRule t p
  | AllowFromIp ip port p | DenyFromIp ip port p => ipRule ip port p
  end.

(** The [ufw] verb of the request, also the [action] of its result. *)
Definition verb (q : request) : jsstring :=
  match q with
  | Allow _ _ | AllowFromIp _ _ _ => js "allow"
  | Deny _ _ | DenyFromIp _ _ _ => js "deny"
  | Reject _ _ => js "reject"
  end.

(** The code unit of ['/']. *)
Definition SLASH : N := 47%N.

(** The code unit of [' ']. *)
Definition SPACE : N := 32%N.

(** A call of one of the five methods that take no rule. *)
Inductive lifecycle : Type :=
| Enable
| Disable
| Reload
| Reset
| Logging.

(** The [action] of its result. *)
Definition lifecycleAction (op : lifecycle) : jsstring :=
  match op with
  | Enable => js "enable"
  | Disable => js "disable"
  | Reload => js "reload"
  | Reset => js "reset"
  | Logging => js "logging"
  end.

(** The command line it runs. *)
Definition lifecycleCommand (op : lifecycle) : jsstring :=
  match op with
  | Enable => js "sudo ufw enable"
  | Disable => js "sudo ufw disable"
  | Reload => js "sudo ufw reload"
  | Reset => js "sudo ufw reset"
  | Logging => js "sudo ufw logging on"
  end.

(** ** Values the methods produce *)

(** What the callback of [child_process.exec] receives: whether [error] is
    set, and the two captured streams. *)
Record exec_result : Type := mkExec {
  error : bool;
  stdout : jsstring;
  stderr : jsstring
}.

(** What a rejected call carries: the string [runCommand] rejects with, or
    the exception [fs.readFileSync] throws. *)
Inductive thrown : Type :=
| RejectedWith (reason : jsstring)
| FsError (detail : jsstring).

Inductive outcome (A : Type) : Type :=
| Resolved (a : A)
| Rejected (e : thrown).

Arguments Resolved {A} a.
Arguments Rejected {A} e.

(** The object literal the mutating methods return; [rule] is absent from
    the results of the methods that take no rule. *)
Module Result.
Record t : Type := make {
  status : jsstring;
  rule : option jsstring;
  action : jsstring;
  message : jsstring
}.
End Result.

(** ** Asynchronous computations over the outside world *)

(** The state a method runs in: the outside world and, as a ghost log, the
    command lines handed to [exec] so far, oldest first. *)
Record state (W : Type) : Type := mkState {
  world : W;
  issued : list jsstring
}.

Definition Promise (W A : Type) : Type := state W -> outcome A * state W.

Definition resolve {W A} (a : A) : Promise W A :=
  fun s => (Resolved a, s).

Definition throw {W A} (e : thrown) : Promise W A :=
  fun s => (Rejected e, s).

(** [await p] followed by the rest of the method: a rejection of [p] leaves
    the method at once. *)
Definition bind {W A B} (p : Promise W A) (k : A -> Promise W B) : Promise W B :=
  fun s =>
    match p s with
    | (Resolved a, s') => k a s'
    | (Rejected e, s') => (Rejected e, s')
    end.

Notation "x <- 'await' p ;; k" := (bind p (fun x => k))
  (at level 61, p at next level, right associativity).

(** [for (const x of xs) { body }]. *)
Fixpoint for_of {W A} (xs : list A) (body : A -> Promise W unit) : Promise W unit :=
  match xs with
  | [] => resolve tt
  | x :: xs' => _ <- await body x ;; for_of xs' body
  end.

(** ** The controller *)

Section UFWController.

Variable World : Type.

(** [child_process.exec]: runs a command line in the world. *)
Variable exec : jsstring -> World -> exec_result * World.

(** [fs.readFileSync(path, 'utf-8')]: the text of the file, or the detail of
    the exception. *)
Variable readFileSync : jsstring -> World -> jsstring + jsstring.

Definition runCommand (command : jsstring) : Promise World jsstring :=
  fun s =>
    let (r, w) := exec command (world s) in
    let s' := mkState w (issued s ++ [command]) in
    if error r
    then (Rejected (RejectedWith (js "Error: " ++ stderr r)), s')
    else (Resolved (trim (stdout r)), s').

Definition status : Promise World jsstring :=
  let command := js "sudo ufw status" in
  runCommand command.

Definition ruleExists (rule : jsstring) : Promise World bool :=
  status <- await status ;;
  resolve (includes status rule).

Definition allow (portOrService : portOrService) (protocol : option jsstring)
  : Promise World Result.t :=
  let protocol := orDefault protocol in
  let rule := toString portOrService
              ++ (if truthy protocol then js "/" ++ protocol else js "") in
  exists_ <- await ruleExists rule ;;
  if negb exists_ then
    let command := js "sudo ufw allow " ++ rule in
    result <- await runCommand command ;;
    resolve (Result.make (js "success") (Some rule) (js "allow") result)
  else
    resolve (Result.make (js "skipped") (Some rule) (js "allow")
               (js "Rule '" ++ rule ++ js "' already exists.")).

Definition deny (portOrService : portOrService) (protocol : option jsstring)
  : Promise World Result.t :=
  let protocol := orDefault protocol in
  let rule := toString portOrService
              ++ (if truthy protocol then js "/" ++ protocol else js "") in
  exists_ <- await ruleExists rule ;;
  if negb exists_ then
    let command := js "sudo ufw deny " ++ rule in
    result <- await runCommand command ;;
    resolve (Result.make (js "success") (Some rule) (js "deny") result)
  else
    resolve (Result.make (js "skipped") (Some rule) (js "deny")
               (js "Rule '" ++ rule ++ js "' already exists.")).

Definition allowFromIp (ip : jsstring) (port protocol : option jsstring)
  : Promise World Result.t :=
  let port := orDefault port in
  let protocol := orDefault protocol in
  let rule := js "from " ++ ip
              ++ (if truthy port then js " to any port " ++ port else js "")
              ++ (if truthy protocol then js " proto " ++ protocol else js "") in
  exists_ <- await ruleExists rule ;;
  if negb exists_ then
    let command := js "sudo ufw allow " ++ rule in
    result <- await runCommand command ;;
    resolve (Result.make (js "success") (Some rule) (js "allow") result)
  else
    resolve (Result.make (js "skipped") (Some rule) (js "allow")
               (js "Rule '" ++ rule ++ js "' already exists.")).

Definition denyFromIp (ip : jsstring) (port protocol : option jsstring)
  : Promise World Result.t :=
  let port := orDefault port in
  let protocol := orDefault protocol in
  let rule := js "from " ++ ip
              ++ (if truthy port then js " to any port " ++ port else js "")
              ++ (if truthy protocol then js " proto " ++ protocol else js "") in
  exists_ <- await ruleExists rule ;;
  if negb exists_ then
    let command := js "sudo ufw deny " ++ rule in
    result <- await runCommand command ;;
    resolve (Result.make (js "success") (Some rule) (js "deny") result)
  else
    resolve (Result.make (js "skipped") (Some rule) (js "deny")
               (js "Rule '" ++ rule ++ js "' already exists.")).

Definition reject (portOrService : portOrService) (protocol : option jsstring)
  : Promise World Result.t :=
  let protocol := orDefault protocol in
  let rule := toString portOrService
              ++ (if truthy protocol then js "/" ++ protocol else js "") in
  exists_ <- await ruleExists rule ;;
  if negb exists_ then
    let command := js "sudo ufw reject " ++ rule in
    result <- await runCommand command ;;
    resolve (Result.make (js "success") (Some rule) (js "reject") result)
  else
    resolve (Result.make (js "skipped") (Some rule) (js "reject")
               (js "Rule '" ++ rule ++ js "' already exists.")).

Definition isEnabled : Promise World bool :=
  status <- await status ;;
  resolve (includes status (js "active")).

(** [fs.readFileSync] inside an [async] method: an exception rejects the
    call; the world is only read. *)
Definition readFile (filePath : jsstring) : Promise World jsstring :=
  fun s =>
    match readFileSync filePath (world s) with
    | inr text => resolve text s
    | inl detail => throw (FsError detail) s
    end.

Definition restore (filePath : jsstring) : Promise World Result.t :=
  let command := js "sudo ufw reset && sudo ufw allow from any" in
  _ <- await runCommand command ;;
  text <- await readFile filePath ;;
  let backupRules := split LF text in
  _ <- await for_of backupRules (fun rule =>
         if truthy (trim rule) then
           _ <- await runCommand (js "sudo ufw " ++ trim rule) ;;
           resolve tt
         else resolve tt) ;;
  resolve (Result.make (js "success") None (js "restore")
             (js "Restored from " ++ filePath ++ js ".")).

Definition enable : Promise World Result.t :=
  let command := js "sudo ufw enable" in
  result <- await runCommand command ;;
  resolve (Result.make (js "success") None (js "enable") result).

Definition disable : Promise World Result.t :=
  let command := js "sudo ufw disable" in
  result <- await runCommand command ;;
  resolve (Result.make (js "success") None (js "disable") result).

Definition reload : Promise World Result.t :=
  let command := js "sudo ufw reload" in
  result <- await runCommand command ;;
  resolve (Result.make (js "success") None (js "reload") result).

Definition listRules : Promise World jsstring :=
  let command := js "sudo ufw status numbered" in
  runCommand command.

Definition reset : Promise World Result.t :=
  let command := js "sudo ufw reset" in
  result <- await runCommand command ;;
  resolve (Result.make (js "success") None (js "reset") result).

Definition logging : Promise World Result.t :=
  let command := js "sudo ufw logging on" in
  result <- await runCommand command ;;
  resolve (Result.make (js "success") None (js "logging") result).

(** [result] is bound and not used: the message names the path only. *)
Definition backup (filePath : jsstring) : Promise World Result.t :=
  let command := js "sudo ufw status > " ++ filePath in
  result <- await runCommand command ;;
  resolve (Result.make (js "success") None (js "backup")
             (js "Backup saved to " ++ filePath ++ js ".")).

(** The method a lifecycle call runs. *)
Definition runLifecycle (op : lifecycle) : Promise World Result.t :=
  match op with
  | Enable => enable
  | Disable => disable
  | Reload => reload
  | Reset => reset
  | Logging => logging
  end.

(** The method a request calls. *)
Definition perform (q : request) : Promise World Result.t :=
  match q with
  | Allow t p => allow t p
  | Deny t p => deny t p
  | Reject t p => reject t p
  | AllowFromIp ip port p => allowFromIp ip port p
  | DenyFromIp ip port p => denyFromIp ip port p
  end.

(** Vocabulary for [restore]: the lines of the backup that are not blank,
    the command line [restore] builds from one, and what a list of command
    lines does to the world when run one after the other. *)
Definition nonBlank (line : jsstring) : bool := truthy (trim line).

Definition lineCommand (line : jsstring) : jsstring :=
  js "sudo ufw " ++ trim line.

Definition primingCommand : jsstring :=
  js "sudo ufw reset && sudo ufw allow from any".

Fixpoint allSucceed (commands : list jsstring) (w : World) : bool :=
  match commands with
  | [] => true
  | c :: cs => let (r, w') := exec c w in negb (error r) && allSucceed cs w'
  end.

Fixpoint worldAfter (commands : list jsstring) (w : World) : World :=
  match commands with
  | [] => w
  | c :: cs => worldAfter cs (snd (exec c w))
  end.

End UFWController.

(** ** A scripted world

    A stand-in for the operating system in the manner of a unit test: [exec]
    answers with the next canned reply whatever the command line is, and the
    backup file has a fixed fate. *)
Record scripted : Type := mkScripted {
  replies : list exec_result;
  backup_file : jsstring + jsstring
}.

Definition scripted_exec (command : jsstring) (w : scripted) : exec_result * scripted :=
  match replies w with
  | r :: rs => (r, mkScripted rs (backup_file w))
  | [] => (mkExec true [] (js "script exhausted"), w)
  end.

Definition scripted_read (path : jsstring) (w : scripted) : jsstring + jsstring :=
  backup_file w.

Definition ok (out : string) : exec_result := mkExec false (js out) [].

Definition failed (err : string) : exec_result := mkExec true [] (js err).

Definition fresh (rs : list exec_result) (file : jsstring + jsstring) : state scripted :=
  mkState (mkScripted rs file) [].

(** What [ufw status] prints with one rule in place, and with the firewall
    off; like every line-oriented tool it ends its output with a newline. *)
Definition active_report : jsstring :=
  join LF [ js "Status: active";
            js "";
            js "To                         Action      From";
            js "--                         ------      ----";
            js "80/tcp                     ALLOW       Anywhere";
            js "" ].

Definition inactive_report : jsstring :=
  join LF [ js "Status: inactive"; js "" ].

Definition printed (out : jsstring) : exec_result := mkExec false out [].

Definition no_backup : jsstring + jsstring :=
  inl (js "ENOENT: no such file or directory, open 'backup.rules'").

Definition backup_rules : jsstring :=
  join LF [ js "allow 80/tcp"; js ""; js "  deny 22  "; js "reject 443" ].


(** The same backup as a DOS text file, indented: every line ends in CR
    before the LF. *)
Definition CR : N := 13%N.

Definition dos_backup_rules : jsstring :=
  join LF [ js "allow 80/tcp" ++ [CR]; [CR]; js "    deny 22  " ++ [CR];
            js "reject 443" ++ [CR] ].

(** A reader that knows the file [dos.rules] besides the scripted backup. *)
Definition scripted_read_dos (path : jsstring) (w : scripted)
  : jsstring + jsstring :=
  if startsWith path (js "dos.rules") then inr dos_backup_rules
  else backup_file w.

Unset Implicit Arguments.

(** * Properties *)

(** ** Strings *)

Lemma startsWith_prefix (s p : jsstring) :
  startsWith s p = true <-> exists t, s = p ++ t.
Proof.
  revert s; induction p as [|c p IH]; intros s; simpl.
  - split; [intros _; now exists s | reflexivity].
  - destruct s as [|d s].
    + split; [discriminate | intros [t Ht]; discriminate].
    + rewrite andb_true_iff, N.eqb_eq, IH. split.
      * intros [-> [t ->]]. now exists t.
      * intros [t Ht]. injection Ht as -> ->. split; [reflexivity | now exists t].
Qed.

(** [includes] is substring containment. *)
Lemma includes_substring (s sub : jsstring) :
  includes s sub = true <-> exists a b, s = a ++ sub ++ b.
Proof.
  induction s as [|d s IH].
  - simpl. rewrite orb_false_r, startsWith_prefix. split.
    + intros [t Ht]. now exists [], t.
    + intros [a [b H]]. destruct a; [now exists b | discriminate].
  - cbn [includes]. rewrite orb_true_iff, startsWith_prefix, IH. split.
    + intros [[t Ht] | [a [b H]]].
      * now exists [], t.
      * exists (d :: a), b. now rewrite H.
    + intros [[|x a] [b H]].
      * left. now exists b.
      * right. injection H as _ ->. now exists a, b.
Qed.

Lemma includes_absent (s sub : jsstring) :
  includes s sub = false <-> ~ exists a b, s = a ++ sub ++ b.
Proof.
  rewrite <- includes_substring. destruct (includes s sub); split; congruence.
Qed.

Lemma trimStart_decompose (s : jsstring) :
  exists a, s = a ++ trimStart s /\ forallb isWhiteSpace a = true.
Proof.
  induction s as [|c s [a [Ha Hw]]]; simpl.
  - now exists [].
  - destruct (isWhiteSpace c) eqn:Hc.
    + exists (c :: a). simpl. rewrite Hc, Hw. now rewrite <- Ha.
    + now exists [].
Qed.

Lemma trimStart_head (s : jsstring) (c : N) (t : jsstring) :
  trimStart s = c :: t -> isWhiteSpace c = false.
Proof.
  induction s as [|d s IH]; simpl; [discriminate|].
  destruct (isWhiteSpace d) eqn:Hd; [exact IH|].
  intros H. injection H as <- _. exact Hd.
Qed.

Lemma forallb_rev {A} (f : A -> bool) (l : list A) :
  forallb f (rev l) = forallb f l.
Proof.
  induction l as [|x l IH]; simpl; [reflexivity|].
  rewrite forallb_app, IH. simpl. rewrite andb_true_r. apply andb_comm.
Qed.

Lemma trimEnd_decompose (s : jsstring) :
  exists b, s = trimEnd s ++ b /\ forallb isWhiteSpace b = true.
Proof.
  unfold trimEnd. destruct (trimStart_decompose (rev s)) as [a [Ha Hw]].
  exists (rev a). split.
  - rewrite <- rev_app_distr, <- Ha. now rewrite rev_involutive.
  - now rewrite forallb_rev.
Qed.

(** [trim] only removes white space, and only at the two ends. *)
Lemma trim_decompose (s : jsstring) :
  exists a b, s = a ++ trim s ++ b
              /\ forallb isWhiteSpace a = true
              /\ forallb isWhiteSpace b = true.
Proof.
  unfold trim.
  destruct (trimStart_decompose s) as [a [Ha Hwa]].
  destruct (trimEnd_decompose (trimStart s)) as [b [Hb Hwb]].
  exists a, b. repeat split; try assumption.
  now rewrite <- Hb.
Qed.

Lemma trimStart_fixed (c : N) (s : jsstring) :
  isWhiteSpace c = false -> trimStart (c :: s) = c :: s.
Proof. intros H. simpl. now rewrite H. Qed.

(** A string that neither starts nor ends with white space is left as it
    is. *)
Lemma trim_fixed (s : jsstring) :
  (forall c t, s = c :: t -> isWhiteSpace c = false) ->
  (forall c t, s = t ++ [c] -> isWhiteSpace c = false) ->
  trim s = s.
Proof.
  intros Hfirst Hlast. unfold trim.
  assert (Hs : trimStart s = s).
  { destruct s as [|c t]; [reflexivity|].
    apply trimStart_fixed. now apply (Hfirst c t). }
  rewrite Hs. unfold trimEnd.
  destruct (rev s) as [|c t] eqn:Hr.
  - simpl. apply (f_equal (@rev N)) in Hr. rewrite rev_involutive in Hr.
    now rewrite Hr.
  - rewrite trimStart_fixed.
    + rewrite <- Hr. apply rev_involutive.
    + apply (Hlast c (rev t)).
      apply (f_equal (@rev N)) in Hr. rewrite rev_involutive in Hr.
      now rewrite Hr.
Qed.

(** What [trim] gives back has no white space left at either end. *)
Lemma trim_head (s : jsstring) (c : N) (t : jsstring) :
  trim s = c :: t -> isWhiteSpace c = false.
Proof.
  unfold trim. intros H.
  destruct (trimEnd_decompose (trimStart s)) as [b [Hb _]].
  rewrite H in Hb. exact (trimStart_head s c (t ++ b) Hb).
Qed.

Lemma trim_last (s : jsstring) (c : N) (t : jsstring) :
  trim s = t ++ [c] -> isWhiteSpace c = false.
Proof.
  unfold trim, trimEnd. intros H.
  apply (f_equal (@rev N)) in H.
  rewrite rev_involutive, rev_app_distr in H.
  exact (trimStart_head _ c (rev t) H).
Qed.

Lemma trim_idempotent (s : jsstring) : trim (trim s) = trim s.
Proof.
  apply trim_fixed; intros c t H.
  - exact (trim_head s c t H).
  - exact (trim_last s c t H).
Qed.

(** The empty string occurs in every string. *)
Lemma includes_empty (s : jsstring) : includes s [] = true.
Proof. destruct s; reflexivity. Qed.

Lemma trimStart_ws_app (a l : jsstring) :
  forallb isWhiteSpace a = true -> trimStart (a ++ l) = trimStart l.
Proof.
  induction a as [|c a IH]; cbn [forallb app trimStart]; [reflexivity|].
  intros H. apply andb_true_iff in H. destruct H as [Hc Ha].
  rewrite Hc. now apply IH.
Qed.

Lemma trimStart_all_ws (b : jsstring) :
  forallb isWhiteSpace b = true -> trimStart b = [].
Proof.
  intros H. rewrite <- (app_nil_r b). now rewrite trimStart_ws_app.
Qed.

Lemma trimStart_app (l b : jsstring) :
  trimStart (l ++ b)
  = match trimStart l with
    | [] => trimStart b
    | c :: t => (c :: t) ++ b
    end.
Proof.
  induction l as [|c l IH]; cbn [app trimStart].
  - now destruct (trimStart b).
  - destruct (isWhiteSpace c); [exact IH | reflexivity].
Qed.

Lemma trimEnd_app_ws (l b : jsstring) :
  forallb isWhiteSpace b = true -> trimEnd (l ++ b) = trimEnd l.
Proof.
  intros H. unfold trimEnd. rewrite rev_app_distr, trimStart_ws_app;
    [reflexivity | now rewrite forallb_rev].
Qed.

(** White space around a string does not show after [trim]. *)
Lemma trim_padded (a l b : jsstring) :
  forallb isWhiteSpace a = true -> forallb isWhiteSpace b = true ->
  trim (a ++ l ++ b) = trim l.
Proof.
  intros Ha Hb. unfold trim. rewrite trimStart_ws_app by exact Ha.
  rewrite trimStart_app. destruct (trimStart l) as [|c t].
  - now rewrite trimStart_all_ws.
  - now apply trimEnd_app_ws.
Qed.

Lemma split_without_sep (sep : N) (l : jsstring) :
  ~ In sep l -> split sep l = [l].
Proof.
  induction l as [|c l IH]; simpl; intros H; [reflexivity|].
  destruct (N.eqb_spec c sep) as [->|_]; [exfalso; now apply H; left|].
  rewrite IH; [reflexivity | intros Hin; apply H; now right].
Qed.

Lemma split_first_piece (sep : N) (l rest : jsstring) :
  ~ In sep l -> split sep (l ++ sep :: rest) = l :: split sep rest.
Proof.
  induction l as [|c l IH]; simpl; intros H.
  - now rewrite N.eqb_refl.
  - destruct (N.eqb_spec c sep) as [->|_]; [exfalso; now apply H; left|].
    rewrite IH; [reflexivity | intros Hin; apply H; now right].
Qed.

(** Splitting the text of a file gives back the lines it was written
    from. *)
Lemma split_join (sep : N) (lines : list jsstring) :
  lines <> [] ->
  Forall (fun l => ~ In sep l) lines ->
  split sep (join sep lines) = lines.
Proof.
  intros Hne Hall. revert Hne.
  induction Hall as [|l ls Hl Hls IH]; intros Hne; [now elim Hne|].
  destruct ls as [|l' ls].
  - simpl. now apply split_without_sep.
  - change (join sep (l :: l' :: ls)) with (l ++ sep :: join sep (l' :: ls)).
    rewrite split_first_piece by assumption.
    rewrite IH; [reflexivity | discriminate].
Qed.

Lemma split_nonempty (sep : N) (s : jsstring) : split sep s <> [].
Proof.
  destruct s as [|c s]; simpl; [discriminate|].
  destruct (N.eqb c sep); [discriminate|].
  destruct (split sep s); discriminate.
Qed.

(** Joining the pieces of a text gives the text back. *)
Lemma join_split (sep : N) (s : jsstring) : join sep (split sep s) = s.
Proof.
  induction s as [|c s IH]; simpl; [reflexivity|].
  destruct (N.eqb_spec c sep) as [->|_].
  - pose proof (split_nonempty sep s) as Hne.
    destruct (split sep s) as [|p ps] eqn:Hs; [congruence|].
    simpl. simpl in IH. now rewrite IH.
  - pose proof (split_nonempty sep s) as Hne.
    destruct (split sep s) as [|p ps] eqn:Hs; [congruence|].
    destruct ps as [|q qs]; simpl in *; now rewrite <- IH.
Qed.

Lemma digits_no_slash (u : Decimal.uint) : ~ In SLASH (digits u).
Proof.
  induction u; simpl; [tauto|..]; intros [H|H]; try discriminate H; auto.
Qed.

Lemma digits_injective (u v : Decimal.uint) : digits u = digits v -> u = v.
Proof.
  revert v; induction u; intros [] H; simpl in H;
    try discriminate H; try reflexivity;
    injection H as H; f_equal; now apply IHu.
Qed.

Lemma toString_Num_injective (n m : N) :
  toString (Num n) = toString (Num m) -> n = m.
Proof.
  simpl. intros H. apply DecimalN.Unsigned.to_uint_inj.
  now apply digits_injective.
Qed.

Lemma app_sep_injective (c : N) (a1 a2 b1 b2 : jsstring) :
  ~ In c a1 -> ~ In c a2 ->
  a1 ++ c :: b1 = a2 ++ c :: b2 -> a1 = a2 /\ b1 = b2.
Proof.
  revert a2; induction a1 as [|x a1 IH]; intros [|y a2] H1 H2 H; simpl in *.
  - injection H as ->. now split.
  - injection H as -> _. exfalso. apply H2. now left.
  - injection H as -> _. exfalso. apply H1. now left.
  - injection H as -> H.
    destruct (IH a2) as [-> ->]; auto.
Qed.

(** Two strings free of [c], each followed by nothing or by [c] and more:
    equal wholes have equal parts. *)
Lemma app_sep_or_end (c : N) (a1 a2 r1 r2 : jsstring) :
  ~ In c a1 -> ~ In c a2 ->
  (r1 = [] \/ exists t, r1 = c :: t) ->
  (r2 = [] \/ exists t, r2 = c :: t) ->
  a1 ++ r1 = a2 ++ r2 -> a1 = a2 /\ r1 = r2.
Proof.
  intros H1 H2 [->|[t1 ->]] [->|[t2 ->]] H.
  - rewrite !app_nil_r in H. now split.
  - exfalso. apply H1. rewrite app_nil_r in H. rewrite H.
    apply in_or_app. right. now left.
  - exfalso. apply H2. rewrite app_nil_r in H. rewrite <- H.
    apply in_or_app. right. now left.
  - apply app_sep_injective in H; [|assumption..].
    destruct H as [-> ->]. now split.
Qed.

(** ** Rule rendering *)

Lemma portRule_unfold (t : portOrService) (p : option jsstring) :
  portRule t p =
  toString t ++ match orDefault p with
                | [] => []
                | c :: q => SLASH :: c :: q
                end.
Proof. unfold portRule. now destruct (orDefault p). Qed.

(** Away from ['/'] in the target, the rule string determines the printed
    target and the protocol. *)
Lemma portRule_separates (t1 t2 : portOrService) (p1 p2 : option jsstring) :
  ~ In SLASH (toString t1) -> ~ In SLASH (toString t2) ->
  portRule t1 p1 = portRule t2 p2 ->
  toString t1 = toString t2 /\ orDefault p1 = orDefault p2.
Proof.
  intros H1 H2. rewrite !portRule_unfold.
  destruct (orDefault p1) as [|c1 q1], (orDefault p2) as [|c2 q2]; intros H.
  - rewrite !app_nil_r in H. now split.
  - exfalso. apply H1. rewrite app_nil_r in H. rewrite H.
    apply in_or_app. right. now left.
  - exfalso. apply H2. rewrite app_nil_r in H. rewrite <- H.
    apply in_or_app. right. now left.
  - apply app_sep_injective in H; [|assumption..].
    destruct H as [-> ->]. now split.
Qed.

(** C3. Rule rendering is a function of its inputs; on the four inputs the
    specification lists it gives: target 80 with protocol tcp, ["80/tcp"];
    target 80 without a protocol, ["80"]; ip 10.0.0.5 with port 8080 and
    protocol tcp, ["from 10.0.0.5 to any port 8080 proto tcp"]; ip 10.0.0.5
    alone, ["from 10.0.0.5"]. *)
Theorem rendering_examples :
  portRule (Num 80) (Some (js "tcp")) = js "80/tcp"
  /\ portRule (Num 80) None = js "80"
  /\ ipRule (js "10.0.0.5") (Some (js "8080")) (Some (js "tcp"))
     = js "from 10.0.0.5 to any port 8080 proto tcp"
  /\ ipRule (js "10.0.0.5") None None = js "from 10.0.0.5".
Proof. repeat split; reflexivity. Qed.

(** C4, as stated, fails: the service name ["80/tcp"] without a protocol and
    the service name ["80"] with protocol ["tcp"] are different pairs with
    one rule string. *)
Lemma portRule_not_injective :
  ~ (forall t1 p1 t2 p2,
        portRule t1 p1 = portRule t2 p2 -> t1 = t2 /\ p1 = p2).
Proof.
  intros H.
  destruct (H (Str (js "80/tcp")) None (Str (js "80")) (Some (js "tcp")))
    as [_ Hp]; [reflexivity | discriminate Hp].
Qed.

(** C4, amended. For two pairs whose targets, printed as [allow] prints
    them, hold no ['/']: equal rule strings force equal printed targets and
    equal protocols, an omitted protocol counting as the empty one. *)
Theorem portRule_injective_without_slash
  (t1 t2 : portOrService) (p1 p2 : option jsstring) :
  ~ In SLASH (toString t1) -> ~ In SLASH (toString t2) ->
  portRule t1 p1 = portRule t2 p2 ->
  toString t1 = toString t2 /\ orDefault p1 = orDefault p2.
Proof. apply portRule_separates. Qed.

(** For port numbers the condition always holds, and the number itself is
    determined. *)
Theorem portRule_injective_on_numbers (n m : N) (p1 p2 : option jsstring) :
  portRule (Num n) p1 = portRule (Num m) p2 ->
  n = m /\ orDefault p1 = orDefault p2.
Proof.
  intros H. apply portRule_separates in H; try apply digits_no_slash.
  destruct H as [Ht Hp]. split; [now apply toString_Num_injective | exact Hp].
Qed.

Lemma ipRule_unfold (ip : jsstring) (port protocol : option jsstring) :
  ipRule ip port protocol =
  js "from " ++ ip
  ++ match orDefault port with
     | [] => []
     | c :: q => js " to any port " ++ c :: q
     end
  ++ match orDefault protocol with
     | [] => []
     | c :: q => js " proto " ++ c :: q
     end.
Proof. unfold ipRule. now destruct (orDefault port), (orDefault protocol). Qed.

(** The source-IP rendering determines its three inputs when neither the
    address nor the port holds a space (an omitted port or protocol counting
    as the empty string). *)
Theorem ipRule_injective_without_space
  (ip1 ip2 : jsstring) (port1 port2 p1 p2 : option jsstring) :
  ~ In SPACE ip1 -> ~ In SPACE ip2 ->
  ~ In SPACE (orDefault port1) -> ~ In SPACE (orDefault port2) ->
  ipRule ip1 port1 p1 = ipRule ip2 port2 p2 ->
  ip1 = ip2 /\ orDefault port1 = orDefault port2 /\ orDefault p1 = orDefault p2.
Proof.
  intros Hi1 Hi2 Hp1 Hp2. rewrite !ipRule_unfold. intros H.
  apply app_inv_head in H.
  apply (app_sep_or_end SPACE) in H; try assumption.
  - destruct H as [-> H]. split; [reflexivity|].
    destruct (orDefault port1) as [|c1 q1], (orDefault port2) as [|c2 q2].
    + split; [reflexivity|].
      destruct (orDefault p1), (orDefault p2); try discriminate H;
        [reflexivity | now injection H as -> ->].
    + exfalso. destruct (orDefault p1); discriminate H.
    + exfalso. destruct (orDefault p2); discriminate H.
    + apply (app_inv_head (js " to any port ")) in H.
      apply (app_sep_or_end SPACE (c1 :: q1) (c2 :: q2)) in H; try assumption.
      * destruct H as [-> H]. split; [reflexivity|].
        destruct (orDefault p1), (orDefault p2); try discriminate H;
          [reflexivity | now injection H as -> ->].
      * destruct (orDefault p1); [now left | right; eexists; reflexivity].
      * destruct (orDefault p2); [now left | right; eexists; reflexivity].
  - destruct (orDefault port1); [destruct (orDefault p1)|];
      [now left | right; eexists; reflexivity | right; eexists; reflexivity].
  - destruct (orDefault port2); [destruct (orDefault p2)|];
      [now left | right; eexists; reflexivity | right; eexists; reflexivity].
Qed.

Lemma digits_nonempty (n : N) : digits (N.to_uint n) <> [].
Proof.
  destruct n as [|p]; [discriminate|]. cbn [N.to_uint].
  pose proof (DecimalPos.Unsigned.to_uint_nonnil p) as Hp.
  destruct (Pos.to_uint p); [congruence | discriminate..].
Qed.

(** The rule string is empty for [allow], [deny] and [reject] of the empty
    service name without a protocol, and for no other request: a port number
    prints at least one digit, a source-IP rule starts with ["from "]. *)
Theorem empty_rule_only_for_empty_service (q : request) :
  ruleOf q = [] <->
  exists p, orDefault p = []
            /\ (q = Allow (Str []) p \/ q = Deny (Str []) p
                \/ q = Reject (Str []) p).
Proof.
  assert (Hport : forall t p, portRule t p = [] -> t = Str [] /\ orDefault p = []).
  { intros t p. rewrite portRule_unfold. intros H.
    apply app_eq_nil in H. destruct H as [Ht Hp]. split.
    - destruct t as [n|str]; cbn [toString] in Ht; [|now rewrite Ht].
      now elim (digits_nonempty n).
    - now destruct (orDefault p). }
  split.
  - destruct q as [t p|t p|t p|ip port p|ip port p]; cbn [ruleOf]; intros H;
      try (apply Hport in H; destruct H as [-> Hp]; exists p; tauto);
      rewrite ipRule_unfold in H; discriminate H.
  - intros [p [Hp [-> | [-> | ->]]]]; cbn [ruleOf]; rewrite portRule_unfold;
      now rewrite Hp.
Qed.

(** ** The controller *)

Section Properties.

Variable World : Type.
Variable exec : jsstring -> World -> exec_result * World.
Variable readFileSync : jsstring -> World -> jsstring + jsstring.

Lemma runCommand_success (command : jsstring) (s : state World)
  (r : exec_result) (w : World) :
  exec command (world s) = (r, w) -> error r = false ->
  runCommand exec command s
  = (Resolved (trim (stdout r)), mkState w (issued s ++ [command])).
Proof. intros He Hr. unfold runCommand. now rewrite He, Hr. Qed.

Lemma runCommand_failure (command : jsstring) (s : state World)
  (r : exec_result) (w : World) :
  exec command (world s) = (r, w) -> error r = true ->
  runCommand exec command s
  = (Rejected (RejectedWith (js "Error: " ++ stderr r)),
     mkState w (issued s ++ [command])).
Proof. intros He Hr. unfold runCommand. now rewrite He, Hr. Qed.

(** Whatever the outcome, [runCommand] hands exactly its command line to
    [exec]. *)
Lemma runCommand_issued (command : jsstring) (s : state World) :
  issued (snd (runCommand exec command s)) = issued s ++ [command].
Proof.
  unfold runCommand. destruct (exec command (world s)) as [r w].
  now destruct (error r).
Qed.

Lemma runCommand_resolved (command : jsstring) (s s' : state World)
  (out : jsstring) :
  runCommand exec command s = (Resolved out, s') ->
  exists r w, exec command (world s) = (r, w) /\ error r = false
              /\ out = trim (stdout r)
              /\ s' = mkState w (issued s ++ [command]).
Proof.
  unfold runCommand. destruct (exec command (world s)) as [r w].
  destruct (error r) eqn:Hr; intros H; [discriminate|].
  injection H as <- <-. now exists r, w.
Qed.

(** [runCommand] rejects with a string only. *)
Lemma runCommand_rejected (command : jsstring) (s s' : state World)
  (e : thrown) :
  runCommand exec command s = (Rejected e, s') ->
  exists reason, e = RejectedWith reason.
Proof.
  unfold runCommand. destruct (exec command (world s)) as [r w].
  destruct (error r); intros H; [|discriminate].
  injection H as <- _. eauto.
Qed.

(** The five rule-adding methods are one method up to the verb and the
    rendering. *)
Lemma perform_unfold (q : request) (s : state World) :
  perform exec q s =
  (exists_ <- await ruleExists exec (ruleOf q) ;;
   if negb exists_ then
     result <- await runCommand exec (js "sudo ufw " ++ verb q ++ js " " ++ ruleOf q) ;;
     resolve (Result.make (js "success") (Some (ruleOf q)) (verb q) result)
   else
     resolve (Result.make (js "skipped") (Some (ruleOf q)) (verb q)
                (js "Rule '" ++ ruleOf q ++ js "' already exists."))) s.
Proof. destruct q; reflexivity. Qed.

Lemma ruleExists_run (rule report : jsstring) (s s' : state World) :
  status exec s = (Resolved report, s') ->
  ruleExists exec rule s = (Resolved (includes report rule), s').
Proof. intros H. unfold ruleExists, bind. now rewrite H. Qed.

Lemma status_issued (report : jsstring) (s s' : state World) :
  status exec s = (Resolved report, s') ->
  issued s' = issued s ++ [js "sudo ufw status"].
Proof.
  intros H. pose proof (runCommand_issued (js "sudo ufw status") s) as Hi.
  unfold status in H. now rewrite H in Hi.
Qed.

(** A rule-adding call after its status query: nothing more when the rule
    is found, the mutating command when it is not. *)
Lemma perform_found (q : request) (s s' : state World) (report : jsstring) :
  status exec s = (Resolved report, s') ->
  includes report (ruleOf q) = true ->
  perform exec q s
  = (Resolved (Result.make (js "skipped") (Some (ruleOf q)) (verb q)
                 (js "Rule '" ++ ruleOf q ++ js "' already exists.")), s').
Proof.
  intros Hstatus Hin. rewrite perform_unfold. unfold bind.
  rewrite (ruleExists_run _ _ _ _ Hstatus), Hin. reflexivity.
Qed.

Lemma perform_not_found (q : request) (s s' : state World) (report : jsstring) :
  status exec s = (Resolved report, s') ->
  includes report (ruleOf q) = false ->
  perform exec q s
  = match runCommand exec (js "sudo ufw " ++ verb q ++ js " " ++ ruleOf q) s' with
    | (Resolved result, s2) =>
        (Resolved (Result.make (js "success") (Some (ruleOf q)) (verb q) result), s2)
    | (Rejected e, s2) => (Rejected e, s2)
    end.
Proof.
  intros Hstatus Hout. rewrite perform_unfold. unfold bind.
  rewrite (ruleExists_run _ _ _ _ Hstatus), Hout. reflexivity.
Qed.

(** C1. When the rule string of a request occurs in the status report, the
    call resolves to the [skipped] result with the message
    [Rule '<rule>' already exists.], in the state the status query left: the
    status query is the only command line handed to [exec]. *)
Theorem present_rule_is_skipped (q : request) (s s' : state World)
  (report : jsstring) :
  status exec s = (Resolved report, s') ->
  (exists a b, report = a ++ ruleOf q ++ b) ->
  perform exec q s
  = (Resolved (Result.make (js "skipped") (Some (ruleOf q)) (verb q)
                 (js "Rule '" ++ ruleOf q ++ js "' already exists.")), s')
  /\ issued s' = issued s ++ [js "sudo ufw status"].
Proof.
  intros Hstatus Hin. apply includes_substring in Hin. split.
  - now apply perform_found with (report := report).
  - exact (status_issued _ _ _ Hstatus).
Qed.

(** C2. When the rule string of a request does not occur in the status
    report, the call hands [exec], after the status query, exactly one more
    command line, [sudo ufw <verb> <rule>] with the rendered rule; and when
    that command succeeds the call resolves to the [success] result. *)
Theorem absent_rule_is_added (q : request) (s s1 : state World)
  (report : jsstring) :
  status exec s = (Resolved report, s1) ->
  ~ (exists a b, report = a ++ ruleOf q ++ b) ->
  issued (snd (perform exec q s))
  = issued s ++ [js "sudo ufw status";
                 js "sudo ufw " ++ verb q ++ js " " ++ ruleOf q]
  /\ forall r w,
       exec (js "sudo ufw " ++ verb q ++ js " " ++ ruleOf q) (world s1) = (r, w) ->
       error r = false ->
       perform exec q s
       = (Resolved (Result.make (js "success") (Some (ruleOf q)) (verb q)
                      (trim (stdout r))),
          mkState w (issued s ++ [js "sudo ufw status";
                                  js "sudo ufw " ++ verb q ++ js " " ++ ruleOf q])).
Proof.
  intros Hstatus Hout. apply includes_absent in Hout.
  pose proof (status_issued _ _ _ Hstatus) as Hi.
  rewrite (perform_not_found _ _ _ _ Hstatus Hout).
  set (command := js "sudo ufw " ++ verb q ++ js " " ++ ruleOf q).
  split.
  - pose proof (runCommand_issued command s1) as Hc.
    destruct (runCommand exec command s1) as [[out|e] s2]; simpl in *;
      now rewrite Hc, Hi, <- app_assoc.
  - intros r w He Hr.
    rewrite (runCommand_success _ _ _ _ He Hr), Hi, <- app_assoc. reflexivity.
Qed.

(** C5. [isEnabled] resolves to [true] when the status report holds
    ["active"] as a substring and to [false] when it does not. *)
Theorem isEnabled_iff_active (s s' : state World) (report : jsstring) :
  status exec s = (Resolved report, s') ->
  ((exists a b, report = a ++ js "active" ++ b) ->
   isEnabled exec s = (Resolved true, s'))
  /\ (~ (exists a b, report = a ++ js "active" ++ b) ->
      isEnabled exec s = (Resolved false, s')).
Proof.
  intros Hstatus. unfold isEnabled, bind. rewrite Hstatus. split; intros H.
  - apply includes_substring in H. unfold resolve. now rewrite H.
  - apply includes_absent in H. unfold resolve. now rewrite H.
Qed.

(** C10. A status report that holds ["inactive"] makes [isEnabled] resolve
    to [true]: ["active"] is a substring of ["inactive"]. *)
Theorem isEnabled_on_inactive (s s' : state World) (report : jsstring) :
  status exec s = (Resolved report, s') ->
  (exists a b, report = a ++ js "inactive" ++ b) ->
  isEnabled exec s = (Resolved true, s').
Proof.
  intros Hstatus [a [b Hr]]. unfold isEnabled, bind. rewrite Hstatus.
  assert (H : includes report (js "active") = true).
  { apply includes_substring. exists (a ++ js "in"), b.
    rewrite Hr, <- app_assoc. reflexivity. }
  unfold resolve. now rewrite H.
Qed.

(** C9, amended. [status] resolves to the standard output of
    [sudo ufw status] with the white space at its two ends trimmed off and
    nothing else changed; and when a rule-adding call runs its command and
    the command succeeds, the message of the result is that command's
    standard output, trimmed in the same way. *)
Theorem status_is_trimmed_output (s : state World) (r : exec_result)
  (w : World) :
  exec (js "sudo ufw status") (world s) = (r, w) ->
  error r = false ->
  status exec s
  = (Resolved (trim (stdout r)), mkState w (issued s ++ [js "sudo ufw status"]))
  /\ (exists a b, stdout r = a ++ trim (stdout r) ++ b
                  /\ forallb isWhiteSpace a = true
                  /\ forallb isWhiteSpace b = true)
  /\ forall q r' w',
       includes (trim (stdout r)) (ruleOf q) = false ->
       exec (js "sudo ufw " ++ verb q ++ js " " ++ ruleOf q) w = (r', w') ->
       error r' = false ->
       exists res s2, perform exec q s = (Resolved res, s2)
                      /\ Result.message res = trim (stdout r').
Proof.
  intros He Hr.
  assert (Hstatus : status exec s
                    = (Resolved (trim (stdout r)),
                       mkState w (issued s ++ [js "sudo ufw status"]))).
  { unfold status. now apply runCommand_success. }
  split; [exact Hstatus|]. split; [apply trim_decompose|].
  intros q r' w' Hout He' Hr'.
  rewrite (perform_not_found _ _ _ _ Hstatus Hout).
  rewrite (runCommand_success _ (mkState w _) _ _ He' Hr').
  eexists _, _. split; reflexivity.
Qed.

(** When the status query itself fails, a rule-adding call is rejected
    with that failure and issues nothing after the query. *)
Theorem failed_status_query_propagates (q : request) (s s' : state World)
  (e : thrown) :
  status exec s = (Rejected e, s') ->
  perform exec q s = (Rejected e, s')
  /\ issued s' = issued s ++ [js "sudo ufw status"].
Proof.
  intros Hstatus. split.
  - rewrite perform_unfold. unfold bind at 1. unfold ruleExists, bind.
    now rewrite Hstatus.
  - pose proof (runCommand_issued (js "sudo ufw status") s) as Hi.
    unfold status in Hstatus. now rewrite Hstatus in Hi.
Qed.

(** *** restore *)

Lemma for_of_cons {A : Type} (x : A) (xs : list A)
  (body : A -> Promise World unit) (s : state World) :
  for_of (x :: xs) body s
  = match body x s with
    | (Resolved _, s') => for_of xs body s'
    | (Rejected e, s') => (Rejected e, s')
    end.
Proof. reflexivity. Qed.

(** One command of the loop of [restore]. *)
Lemma run_command_step (command : jsstring) (s : state World) :
  (_ <- await runCommand exec command ;; resolve tt) s
  = match runCommand exec command s with
    | (Resolved _, s') => (Resolved tt, s')
    | (Rejected e, s') => (Rejected e, s')
    end.
Proof. reflexivity. Qed.

(** The loop of [restore] runs the commands of the non-blank lines. *)
Lemma restore_loop_skips_blank (lines : list jsstring) (s : state World) :
  for_of lines (fun rule =>
    if truthy (trim rule) then
      _ <- await runCommand exec (js "sudo ufw " ++ trim rule) ;;
      resolve tt
    else resolve tt) s
  = for_of (map lineCommand (filter nonBlank lines)) (fun command =>
      _ <- await runCommand exec command ;;
      resolve tt) s.
Proof.
  revert s; induction lines as [|rule lines IH]; intros s; [reflexivity|].
  rewrite for_of_cons. cbn [filter]. unfold nonBlank at 1.
  destruct (truthy (trim rule)).
  - cbn [map]. rewrite for_of_cons, !run_command_step.
    change (lineCommand rule) with (js "sudo ufw " ++ trim rule).
    destruct (runCommand exec (js "sudo ufw " ++ trim rule) s) as [[out|e] s1];
      [apply IH | reflexivity].
  - apply IH.
Qed.

Lemma run_commands_succeed (commands : list jsstring) (s : state World) :
  allSucceed exec commands (world s) = true ->
  for_of commands (fun command =>
    _ <- await runCommand exec command ;;
    resolve tt) s
  = (Resolved tt,
     mkState (worldAfter exec commands (world s)) (issued s ++ commands)).
Proof.
  revert s; induction commands as [|c cs IH]; intros s H.
  - cbn. rewrite app_nil_r. now destruct s.
  - cbn [allSucceed] in H. rewrite for_of_cons, run_command_step.
    cbn [worldAfter].
    destruct (exec c (world s)) as [r w] eqn:He.
    apply andb_true_iff in H. destruct H as [Hr Hcs].
    apply negb_true_iff in Hr.
    rewrite (runCommand_success _ _ _ _ He Hr).
    rewrite (IH (mkState w (issued s ++ [c])) Hcs). cbn [world issued snd].
    now rewrite <- app_assoc.
Qed.

(** The loop issues the commands in order up to some point (the first
    failure, or the end), and rejects the way [runCommand] does. *)
Lemma run_commands_issued (commands : list jsstring) (s : state World) :
  exists n,
    issued (snd (for_of commands (fun command =>
                   _ <- await runCommand exec command ;;
                   resolve tt) s))
    = issued s ++ firstn n commands.
Proof.
  revert s; induction commands as [|c cs IH]; intros s.
  - exists 0. cbn. now rewrite app_nil_r.
  - rewrite for_of_cons, run_command_step.
    pose proof (runCommand_issued c s) as Hc.
    destruct (runCommand exec c s) as [[out|e] s1]; cbn [snd] in Hc |- *.
    + destruct (IH s1) as [n Hn]. exists (S n).
      rewrite Hn, Hc. cbn [firstn]. now rewrite <- app_assoc.
    + exists 1. exact Hc.
Qed.

Lemma run_commands_rejected (commands : list jsstring) (s s' : state World)
  (e : thrown) :
  for_of commands (fun command =>
    _ <- await runCommand exec command ;;
    resolve tt) s = (Rejected e, s') ->
  exists reason, e = RejectedWith reason.
Proof.
  revert s; induction commands as [|c cs IH]; intros s; [discriminate|].
  rewrite for_of_cons, run_command_step.
  destruct (runCommand exec c s) as [[out|e1] s1] eqn:Hc.
  - apply IH.
  - intros H. injection H as <- _. exact (runCommand_rejected _ _ _ _ Hc).
Qed.

(** [restore], step by step. *)
Lemma restore_unfold (filePath : jsstring) (s : state World) :
  restore exec readFileSync filePath s
  = match runCommand exec primingCommand s with
    | (Resolved _, s1) =>
        match readFileSync filePath (world s1) with
        | inr text =>
            match for_of (map lineCommand (filter nonBlank (split LF text)))
                    (fun command =>
                       _ <- await runCommand exec command ;;
                       resolve tt) s1
            with
            | (Resolved _, s2) =>
                (Resolved (Result.make (js "success") None (js "restore")
                             (js "Restored from " ++ filePath ++ js ".")), s2)
            | (Rejected e, s2) => (Rejected e, s2)
            end
        | inl detail => (Rejected (FsError detail), s1)
        end
    | (Rejected e, s1) => (Rejected e, s1)
    end.
Proof.
  unfold restore, primingCommand. unfold bind at 1.
  destruct (runCommand exec _ s) as [[out|e] s1]; [|reflexivity].
  unfold bind at 1. unfold readFile.
  destruct (readFileSync filePath (world s1)) as [detail|text]; [reflexivity|].
  change (resolve text s1) with (Resolved text, s1). cbv beta iota.
  unfold bind at 1. rewrite restore_loop_skips_blank. reflexivity.
Qed.

(** C6. After the priming command and the read of the backup, [restore]
    hands [exec] one command line per non-blank line of the file, in file
    order, each [sudo ufw] followed by the trimmed line: always an initial
    run of them (up to the first that fails), and all of them when each
    succeeds, the call then resolving to its [success] result.  For the file
    with the lines ["allow 80/tcp"], [""], ["  deny 22  "], ["reject 443"]
    these are three commands, none for the blank line. *)
Theorem restore_issues_nonblank_lines (filePath text : jsstring)
  (s : state World) (r0 : exec_result) (w1 : World) :
  exec primingCommand (world s) = (r0, w1) ->
  error r0 = false ->
  readFileSync filePath w1 = inr text ->
  (exists n,
     issued (snd (restore exec readFileSync filePath s))
     = issued s ++ primingCommand
                   :: firstn n (map lineCommand (filter nonBlank (split LF text))))
  /\ (allSucceed exec (map lineCommand (filter nonBlank (split LF text))) w1 = true ->
      restore exec readFileSync filePath s
      = (Resolved (Result.make (js "success") None (js "restore")
                     (js "Restored from " ++ filePath ++ js ".")),
         mkState
           (worldAfter exec (map lineCommand (filter nonBlank (split LF text))) w1)
           (issued s ++ primingCommand
                        :: map lineCommand (filter nonBlank (split LF text)))))
  /\ (text = join LF [js "allow 80/tcp"; js ""; js "  deny 22  "; js "reject 443"] ->
      map lineCommand (filter nonBlank (split LF text))
      = [js "sudo ufw allow 80/tcp"; js "sudo ufw deny 22";
         js "sudo ufw reject 443"]).
Proof.
  intros He Hr Hread.
  assert (Hrun : restore exec readFileSync filePath s
                 = match for_of (map lineCommand (filter nonBlank (split LF text)))
                           (fun command =>
                              _ <- await runCommand exec command ;;
                              resolve tt)
                           (mkState w1 (issued s ++ [primingCommand]))
                   with
                   | (Resolved _, s2) =>
                       (Resolved (Result.make (js "success") None (js "restore")
                                    (js "Restored from " ++ filePath ++ js ".")),
                        s2)
                   | (Rejected e, s2) => (Rejected e, s2)
                   end).
  { rewrite restore_unfold, (runCommand_success _ _ _ _ He Hr).
    cbn [world]. now rewrite Hread. }
  split; [|split].
  - rewrite Hrun.
    destruct (run_commands_issued
                (map lineCommand (filter nonBlank (split LF text)))
                (mkState w1 (issued s ++ [primingCommand]))) as [n Hn].
    exists n.
    destruct (for_of _ _ _) as [[u|e] s2]; cbn [snd issued] in Hn |- *;
      now rewrite Hn, <- app_assoc.
  - intros Hall. rewrite Hrun.
    rewrite (run_commands_succeed _ (mkState w1 _) Hall). cbn [world issued].
    now rewrite <- app_assoc.
  - intros ->. reflexivity.
Qed.

(** C7. When the backup has three non-blank lines and [exec] fails on the
    command of the second, [restore] is rejected with [Error: ] followed by
    the standard error text of that command; the commands issued are the
    priming command and those of the first and the second line, none for
    the third; no result object is produced. *)
Theorem restore_stops_at_failure (filePath text l1 l2 l3 : jsstring)
  (s : state World) (r0 r1 r2 : exec_result) (w1 w2 w3 : World) :
  exec primingCommand (world s) = (r0, w1) ->
  error r0 = false ->
  readFileSync filePath w1 = inr text ->
  filter nonBlank (split LF text) = [l1; l2; l3] ->
  exec (lineCommand l1) w1 = (r1, w2) ->
  error r1 = false ->
  exec (lineCommand l2) w2 = (r2, w3) ->
  error r2 = true ->
  restore exec readFileSync filePath s
  = (Rejected (RejectedWith (js "Error: " ++ stderr r2)),
     mkState w3 (issued s ++ [primingCommand; lineCommand l1; lineCommand l2])).
Proof.
  intros He Hr Hread Hlines He1 Hr1 He2 Hr2.
  rewrite restore_unfold, (runCommand_success _ _ _ _ He Hr).
  cbn [world]. rewrite Hread, Hlines. cbn [map].
  rewrite for_of_cons, run_command_step.
  rewrite (runCommand_success _ (mkState w1 _) _ _ He1 Hr1).
  rewrite for_of_cons, run_command_step.
  rewrite (runCommand_failure _ (mkState w2 _) _ _ He2 Hr2).
  cbn [issued]. now rewrite <- !app_assoc.
Qed.

(** C8. [restore] hands the priming command (reset, then allow from any) to
    [exec] before it reads the backup: it is the first command of every
    call, and when the read fails after it the call is rejected with the
    exception of the read, the priming command already run, nothing else
    issued. *)
Theorem restore_resets_before_reading (filePath detail : jsstring)
  (s : state World) (r0 : exec_result) (w1 : World) :
  exec primingCommand (world s) = (r0, w1) ->
  error r0 = false ->
  readFileSync filePath w1 = inl detail ->
  restore exec readFileSync filePath s
  = (Rejected (FsError detail), mkState w1 (issued s ++ [primingCommand]))
  /\ (forall path' s0, exists more,
        issued (snd (restore exec readFileSync path' s0))
        = issued s0 ++ primingCommand :: more)
  /\ (forall path' s0 detail' s',
        restore exec readFileSync path' s0 = (Rejected (FsError detail'), s') ->
        s' = mkState (snd (exec primingCommand (world s0)))
                     (issued s0 ++ [primingCommand])).
Proof.
  intros He Hr Hread. split; [|split].
  - rewrite restore_unfold, (runCommand_success _ _ _ _ He Hr).
    cbn [world]. now rewrite Hread.
  - intros path' s0. rewrite restore_unfold.
    pose proof (runCommand_issued primingCommand s0) as Hp.
    destruct (runCommand exec primingCommand s0) as [[out|e] s1];
      cbn [snd] in Hp; [|exists []; exact Hp].
    destruct (readFileSync path' (world s1)) as [d|t]; [exists []; exact Hp|].
    destruct (run_commands_issued
                (map lineCommand (filter nonBlank (split LF t))) s1)
      as [n Hn].
    exists (firstn n (map lineCommand (filter nonBlank (split LF t)))).
    destruct (for_of _ _ s1) as [[u|e] s2]; cbn [snd] in Hn |- *;
      now rewrite Hn, Hp, <- app_assoc.
  - intros path' s0 detail' s'. rewrite restore_unfold.
    destruct (runCommand exec primingCommand s0) as [[out|e] s1] eqn:Hp.
    + apply runCommand_resolved in Hp. destruct Hp as [r [w [He0 [_ [_ ->]]]]].
      cbn [world]. rewrite He0. cbn [snd].
      destruct (readFileSync path' w) as [d|t].
      * intros H. now injection H as _ <-.
      * destruct (for_of _ _ _) as [[u|e] s2] eqn:Hloop; [discriminate|].
        apply run_commands_rejected in Hloop. destruct Hloop as [reason ->].
        discriminate.
    + apply runCommand_rejected in Hp. destruct Hp as [reason ->]. discriminate.
Qed.

(** *** The other methods *)

(** Every resolved text of [runCommand] is trimmed: [trim] leaves it as it
    is, and it has no white space at either end. *)
Lemma runCommand_output_trimmed (command out : jsstring) (s s' : state World) :
  runCommand exec command s = (Resolved out, s') ->
  trim out = out
  /\ (forall c t, out = c :: t -> isWhiteSpace c = false)
  /\ (forall c t, out = t ++ [c] -> isWhiteSpace c = false).
Proof.
  intros H. apply runCommand_resolved in H.
  destruct H as [r [w [_ [_ [-> _]]]]]. split; [apply trim_idempotent|].
  split; intros c t H; [exact (trim_head _ c t H) | exact (trim_last _ c t H)].
Qed.

(** What [status] and [listRules] resolve to neither starts nor ends with
    white space, whatever the tool printed. *)
Theorem query_text_is_trimmed (text : jsstring) (s s' : state World) :
  status exec s = (Resolved text, s') \/ listRules exec s = (Resolved text, s') ->
  trim text = text
  /\ (forall c t, text = c :: t -> isWhiteSpace c = false)
  /\ (forall c t, text = t ++ [c] -> isWhiteSpace c = false).
Proof.
  intros [H|H]; exact (runCommand_output_trimmed _ _ _ _ H).
Qed.

(** [listRules] runs [sudo ufw status numbered] and nothing else: it
    resolves to the trimmed output, or is rejected with the error text. *)
Theorem listRules_runs_numbered_status (s : state World) (r : exec_result)
  (w : World) :
  exec (js "sudo ufw status numbered") (world s) = (r, w) ->
  listRules exec s
  = (if error r
     then Rejected (RejectedWith (js "Error: " ++ stderr r))
     else Resolved (trim (stdout r)),
     mkState w (issued s ++ [js "sudo ufw status numbered"])).
Proof.
  intros He. unfold listRules, runCommand. rewrite He. now destruct (error r).
Qed.

(** [enable], [disable], [reload], [reset] and [logging] hand [exec] their
    one fixed command line, with no status query before it: the call
    resolves to a [success] result without a [rule], whose message is the
    trimmed output, or is rejected with the error text. *)
Theorem lifecycle_runs_one_command (op : lifecycle) (s : state World)
  (r : exec_result) (w : World) :
  exec (lifecycleCommand op) (world s) = (r, w) ->
  runLifecycle exec op s
  = (if error r
     then Rejected (RejectedWith (js "Error: " ++ stderr r))
     else Resolved (Result.make (js "success") None (lifecycleAction op)
                      (trim (stdout r))),
     mkState w (issued s ++ [lifecycleCommand op])).
Proof.
  intros He.
  destruct op; cbn [runLifecycle lifecycleCommand lifecycleAction] in *;
    unfold enable, disable, reload, reset, logging, bind, runCommand;
    rewrite He; now destruct (error r).
Qed.

(** [backup] hands [exec] the one command line [sudo ufw status > <path>];
    when it succeeds the result names the path and owes nothing to what the
    command printed; when it fails the call is rejected with the error
    text. *)
Theorem backup_runs_one_redirect (filePath : jsstring) (s : state World)
  (r : exec_result) (w : World) :
  exec (js "sudo ufw status > " ++ filePath) (world s) = (r, w) ->
  backup exec filePath s
  = (if error r
     then Rejected (RejectedWith (js "Error: " ++ stderr r))
     else Resolved (Result.make (js "success") None (js "backup")
                      (js "Backup saved to " ++ filePath ++ js ".")),
     mkState w (issued s ++ [js "sudo ufw status > " ++ filePath])).
Proof.
  intros He. unfold backup, bind, runCommand. rewrite He.
  now destruct (error r).
Qed.

(** *** More on the rule-adding methods *)

Lemma perform_status_rejected (q : request) (s s' : state World) (e : thrown) :
  status exec s = (Rejected e, s') ->
  perform exec q s = (Rejected e, s').
Proof.
  intros Hstatus. rewrite perform_unfold. unfold bind at 1.
  unfold ruleExists, bind. now rewrite Hstatus.
Qed.

(** A request whose rule string is empty ([allow('')] and the like) is
    skipped whatever the status report says: the empty string occurs in
    every report, so no mutating command is ever issued for it. *)
Theorem empty_rule_is_always_skipped (q : request) (s s' : state World)
  (report : jsstring) :
  ruleOf q = [] ->
  status exec s = (Resolved report, s') ->
  perform exec q s
  = (Resolved (Result.make (js "skipped") (Some []) (verb q)
                 (js "Rule '' already exists.")), s')
  /\ issued s' = issued s ++ [js "sudo ufw status"].
Proof.
  intros Hrule Hstatus. split; [|exact (status_issued _ _ _ Hstatus)].
  rewrite (perform_found q s s' report Hstatus).
  - now rewrite Hrule.
  - rewrite Hrule. apply includes_empty.
Qed.

(** The existence check looks for the rule string anywhere in the report: a
    request is skipped as soon as its rule string occurs inside any text of
    the report, another rule's entry for one. *)
Theorem rule_inside_another_is_skipped (q : request) (s s' : state World)
  (report other : jsstring) :
  status exec s = (Resolved report, s') ->
  (exists a b, report = a ++ other ++ b) ->
  (exists a b, other = a ++ ruleOf q ++ b) ->
  perform exec q s
  = (Resolved (Result.make (js "skipped") (Some (ruleOf q)) (verb q)
                 (js "Rule '" ++ ruleOf q ++ js "' already exists.")), s').
Proof.
  intros Hstatus [a [b Hr]] [a' [b' Ho]].
  apply (perform_found q s s' report Hstatus).
  apply includes_substring. exists (a ++ a'), (b' ++ b).
  rewrite Hr, Ho. now rewrite <- !app_assoc.
Qed.

(** When the mutating command fails, the call is rejected with [Error: ]
    and the standard error text of that command; both the status query and
    the command have been issued, and no result object is produced. *)
Theorem failed_mutation_propagates (q : request) (s s1 : state World)
  (report : jsstring) (r : exec_result) (w : World) :
  status exec s = (Resolved report, s1) ->
  ~ (exists a b, report = a ++ ruleOf q ++ b) ->
  exec (js "sudo ufw " ++ verb q ++ js " " ++ ruleOf q) (world s1) = (r, w) ->
  error r = true ->
  perform exec q s
  = (Rejected (RejectedWith (js "Error: " ++ stderr r)),
     mkState w (issued s ++ [js "sudo ufw status";
                             js "sudo ufw " ++ verb q ++ js " " ++ ruleOf q])).
Proof.
  intros Hstatus Hout He Hr. apply includes_absent in Hout.
  rewrite (perform_not_found _ _ _ _ Hstatus Hout).
  rewrite (runCommand_failure _ _ _ _ He Hr).
  now rewrite (status_issued _ _ _ Hstatus), <- app_assoc.
Qed.

(** What a resolved rule-adding call tells: the result carries the rendered
    rule and the verb, and it is either [skipped], after the status query
    alone, the rule occurring in the report, or [success], after the status
    query and the mutating command, the rule not occurring in the report and
    the message being what the command resolved to. *)
Theorem resolved_result_tells_what_happened (q : request)
  (s s' : state World) (res : Result.t) :
  perform exec q s = (Resolved res, s') ->
  Result.rule res = Some (ruleOf q)
  /\ Result.action res = verb q
  /\ ((Result.status res = js "skipped"
       /\ Result.message res = js "Rule '" ++ ruleOf q ++ js "' already exists."
       /\ issued s' = issued s ++ [js "sudo ufw status"]
       /\ exists report,
            status exec s = (Resolved report, s')
            /\ exists a b, report = a ++ ruleOf q ++ b)
      \/ (Result.status res = js "success"
          /\ issued s' = issued s ++ [js "sudo ufw status";
                                      js "sudo ufw " ++ verb q ++ js " " ++ ruleOf q]
          /\ exists report s1,
               status exec s = (Resolved report, s1)
               /\ ~ (exists a b, report = a ++ ruleOf q ++ b)
               /\ runCommand exec (js "sudo ufw " ++ verb q ++ js " " ++ ruleOf q) s1
                  = (Resolved (Result.message res), s'))).
Proof.
  intros H. destruct (status exec s) as [[report|e] s1] eqn:Hs.
  - destruct (includes report (ruleOf q)) eqn:Hin.
    + rewrite (perform_found _ _ _ _ Hs Hin) in H. injection H as <- <-.
      repeat split. left. repeat split.
      * exact (status_issued _ _ _ Hs).
      * exists report. split; [reflexivity | now apply includes_substring].
    + rewrite (perform_not_found _ _ _ _ Hs Hin) in H.
      destruct (runCommand exec _ s1) as [[out|e] s2] eqn:Hc; [|discriminate H].
      injection H as <- <-. repeat split. right. repeat split.
      * pose proof (runCommand_issued
                      (js "sudo ufw " ++ verb q ++ js " " ++ ruleOf q) s1) as Hi.
        rewrite Hc in Hi. cbn [snd] in Hi.
        now rewrite Hi, (status_issued _ _ _ Hs), <- app_assoc.
      * exists report, s1. split; [reflexivity|].
        split; [now apply includes_absent | exact Hc].
  - rewrite (perform_status_rejected _ _ _ _ Hs) in H. discriminate H.
Qed.

(** The existence check does not look at the verb: when a request is
    skipped, every request with the same rule string is skipped in the same
    state, [deny] of a port for one when the report lists its [allow]. *)
Theorem same_rule_skipped_together (q1 q2 : request) (s s' : state World)
  (res : Result.t) :
  ruleOf q1 = ruleOf q2 ->
  perform exec q1 s = (Resolved res, s') ->
  Result.status res = js "skipped" ->
  perform exec q2 s
  = (Resolved (Result.make (js "skipped") (Some (ruleOf q2)) (verb q2)
                 (js "Rule '" ++ ruleOf q2 ++ js "' already exists.")), s').
Proof.
  intros Hrule H Hskipped. destruct (status exec s) as [[report|e] s1] eqn:Hs.
  - destruct (includes report (ruleOf q1)) eqn:Hin.
    + rewrite (perform_found _ _ _ _ Hs Hin) in H. injection H as _ <-.
      apply (perform_found q2 s s1 report Hs). now rewrite <- Hrule.
    + rewrite (perform_not_found _ _ _ _ Hs Hin) in H.
      destruct (runCommand exec _ s1) as [[out|e] s2]; [|discriminate H].
      injection H as <- _. discriminate Hskipped.
  - rewrite (perform_status_rejected _ _ _ _ Hs) in H. discriminate H.
Qed.

(** [ruleExists] answers [true] exactly when the rule string occurs in the
    text [status] resolves to, the empty rule string always, and issues the
    status query alone. *)
Theorem ruleExists_iff_substring (rule report : jsstring) (s s' : state World) :
  status exec s = (Resolved report, s') ->
  (ruleExists exec rule s = (Resolved true, s')
   <-> exists a b, report = a ++ rule ++ b)
  /\ (ruleExists exec rule s = (Resolved false, s')
      <-> ~ exists a b, report = a ++ rule ++ b)
  /\ ruleExists exec [] s = (Resolved true, s')
  /\ issued s' = issued s ++ [js "sudo ufw status"].
Proof.
  intros Hstatus.
  rewrite (ruleExists_run rule _ _ _ Hstatus), (ruleExists_run [] _ _ _ Hstatus).
  rewrite includes_empty.
  split; [|split; [|split; [reflexivity | exact (status_issued _ _ _ Hstatus)]]].
  - rewrite <- includes_substring. split; intros H; [now injection H | now rewrite H].
  - rewrite <- includes_absent. split; intros H; [now injection H | now rewrite H].
Qed.

(** *** More on restore *)

(** Commands that succeed are run through; the loop goes on from the world
    they leave. *)
Lemma run_commands_app (done more : list jsstring) (s : state World) :
  allSucceed exec done (world s) = true ->
  for_of (done ++ more) (fun command =>
    _ <- await runCommand exec command ;;
    resolve tt) s
  = for_of more (fun command =>
      _ <- await runCommand exec command ;;
      resolve tt)
      (mkState (worldAfter exec done (world s)) (issued s ++ done)).
Proof.
  revert s; induction done as [|c cs IH]; intros s H.
  - cbn. rewrite app_nil_r. now destruct s.
  - cbn [allSucceed] in H. cbn [app]. rewrite for_of_cons, run_command_step.
    cbn [worldAfter].
    destruct (exec c (world s)) as [r w] eqn:He.
    apply andb_true_iff in H. destruct H as [Hr Hcs].
    apply negb_true_iff in Hr.
    rewrite (runCommand_success _ _ _ _ He Hr).
    rewrite (IH (mkState w (issued s ++ [c])) Hcs). cbn [world issued snd].
    now rewrite <- app_assoc.
Qed.

Lemma lineCommand_shape (lines : list jsstring) :
  Forall (fun command =>
            exists l, command = js "sudo ufw " ++ l /\ l <> [] /\ trim l = l)
         (map lineCommand (filter nonBlank lines)).
Proof.
  induction lines as [|line lines IH]; cbn [filter map]; [constructor|].
  destruct (nonBlank line) eqn:Hb; [|exact IH].
  cbn [map]. constructor; [|exact IH].
  exists (trim line). split; [reflexivity|]. split; [|apply trim_idempotent].
  unfold nonBlank in Hb. now destruct (trim line).
Qed.

Lemma Forall_firstn {A : Type} (P : A -> Prop) (n : nat) (l : list A) :
  Forall P l -> Forall P (firstn n l).
Proof.
  intros H. rewrite <- (firstn_skipn n l) in H.
  now apply Forall_app in H.
Qed.

(** When the priming command fails, [restore] is rejected with its error
    text at once: whatever the backup file holds, no command is built from
    it. *)
Theorem restore_priming_failure (filePath : jsstring) (s : state World)
  (r0 : exec_result) (w1 : World) :
  exec primingCommand (world s) = (r0, w1) ->
  error r0 = true ->
  restore exec readFileSync filePath s
  = (Rejected (RejectedWith (js "Error: " ++ stderr r0)),
     mkState w1 (issued s ++ [primingCommand])).
Proof.
  intros He Hr. now rewrite restore_unfold, (runCommand_failure _ _ _ _ He Hr).
Qed.

(** Wherever the first failing command stands among those of the backup,
    [restore] stops there: it is rejected with the error text of that
    command, the commands before it have run, those after it are not
    issued, and nothing is rolled back. *)
Theorem restore_stops_at_first_failure (filePath text c : jsstring)
  (done rest : list jsstring) (s : state World) (r0 r : exec_result)
  (w1 w : World) :
  exec primingCommand (world s) = (r0, w1) ->
  error r0 = false ->
  readFileSync filePath w1 = inr text ->
  map lineCommand (filter nonBlank (split LF text)) = done ++ c :: rest ->
  allSucceed exec done w1 = true ->
  exec c (worldAfter exec done w1) = (r, w) ->
  error r = true ->
  restore exec readFileSync filePath s
  = (Rejected (RejectedWith (js "Error: " ++ stderr r)),
     mkState w (issued s ++ primingCommand :: done ++ [c])).
Proof.
  intros He0 Hr0 Hread Hcommands Hdone He Hr.
  rewrite restore_unfold, (runCommand_success _ _ _ _ He0 Hr0).
  cbn [world]. rewrite Hread, Hcommands.
  rewrite (run_commands_app done (c :: rest) (mkState w1 _) Hdone).
  rewrite for_of_cons, run_command_step.
  rewrite (runCommand_failure _ (mkState (worldAfter exec done w1) _) _ _ He Hr).
  cbn [issued]. now rewrite <- !app_assoc.
Qed.

(** A backup without a non-blank line (the empty file for one) is restored
    with [success]: the firewall has been reset and opened to any source by
    the priming command, and no rule has been added. *)
Theorem restore_of_blank_file (filePath text : jsstring) (s : state World)
  (r0 : exec_result) (w1 : World) :
  exec primingCommand (world s) = (r0, w1) ->
  error r0 = false ->
  readFileSync filePath w1 = inr text ->
  Forall (fun line => trim line = []) (split LF text) ->
  restore exec readFileSync filePath s
  = (Resolved (Result.make (js "success") None (js "restore")
                 (js "Restored from " ++ filePath ++ js ".")),
     mkState w1 (issued s ++ [primingCommand])).
Proof.
  intros He Hr Hread Hblank.
  assert (Hnone : filter nonBlank (split LF text) = []).
  { induction Hblank as [|line lines Hl _ IH]; [reflexivity|].
    cbn [filter]. unfold nonBlank at 1. now rewrite Hl. }
  rewrite restore_unfold, (runCommand_success _ _ _ _ He Hr).
  cbn [world]. now rewrite Hread, Hnone.
Qed.

(** Every call of [restore] issues the priming command first, and after it
    only command lines of the form [sudo ufw <line>] with [<line>] not empty
    and free of white space at its ends: never a bare [sudo ufw ]. *)
Theorem restore_commands_are_trimmed_lines (filePath : jsstring)
  (s : state World) :
  exists more,
    issued (snd (restore exec readFileSync filePath s))
    = issued s ++ primingCommand :: more
    /\ Forall (fun command =>
                 exists l, command = js "sudo ufw " ++ l
                           /\ l <> [] /\ trim l = l) more.
Proof.
  rewrite restore_unfold.
  pose proof (runCommand_issued primingCommand s) as Hp.
  destruct (runCommand exec primingCommand s) as [[out|e] s1];
    cbn [snd] in Hp; [|exists []; split; [exact Hp | constructor]].
  destruct (readFileSync filePath (world s1)) as [d|t];
    [exists []; split; [exact Hp | constructor]|].
  destruct (run_commands_issued
              (map lineCommand (filter nonBlank (split LF t))) s1)
    as [n Hn].
  exists (firstn n (map lineCommand (filter nonBlank (split LF t)))). split.
  - destruct (for_of _ _ s1) as [[u|e] s2]; cbn [snd] in Hn |- *;
      now rewrite Hn, Hp, <- app_assoc.
  - apply Forall_firstn, lineCommand_shape.
Qed.

Lemma padded_lines_same_commands (lines lines' : list jsstring) :
  Forall2 (fun l l' =>
             exists a b, l' = a ++ l ++ b
                         /\ forallb isWhiteSpace a = true
                         /\ forallb isWhiteSpace b = true) lines lines' ->
  map lineCommand (filter nonBlank lines)
  = map lineCommand (filter nonBlank lines').
Proof.
  induction 1 as [|l l' ls ls' [a [b [-> [Ha Hb]]]] _ IH]; [reflexivity|].
  assert (Hblank : nonBlank (a ++ l ++ b) = nonBlank l)
    by (unfold nonBlank; now rewrite trim_padded).
  assert (Hcommand : lineCommand (a ++ l ++ b) = lineCommand l)
    by (unfold lineCommand; now rewrite trim_padded).
  cbn [filter]. rewrite Hblank.
  destruct (nonBlank l); [|exact IH].
  cbn [map]. now rewrite Hcommand, IH.
Qed.

(** White space around the lines of the backup makes no difference to
    [restore]: two files whose lines agree up to white space at their ends
    (indentation, trailing blanks, the CR of DOS line ends) lead to the same
    commands and the same world. *)
Theorem restore_ignores_surrounding_whitespace (path1 path2 text1 text2 : jsstring)
  (s : state World) :
  readFileSync path1 (snd (exec primingCommand (world s))) = inr text1 ->
  readFileSync path2 (snd (exec primingCommand (world s))) = inr text2 ->
  Forall2 (fun l l' =>
             exists a b, l' = a ++ l ++ b
                         /\ forallb isWhiteSpace a = true
                         /\ forallb isWhiteSpace b = true)
          (split LF text1) (split LF text2) ->
  snd (restore exec readFileSync path1 s)
  = snd (restore exec readFileSync path2 s).
Proof.
  intros H1 H2 Hlines. rewrite !restore_unfold. unfold runCommand at 1 3.
  destruct (exec primingCommand (world s)) as [r0 w1]. cbn [snd] in H1, H2.
  destruct (error r0); [reflexivity|]. cbn [world].
  rewrite H1, H2, (padded_lines_same_commands _ _ Hlines).
  now destruct (for_of _ _ _) as [[u|e] s2].
Qed.

End Properties.

(** ** The properties at work on the scripted world *)

Lemma present_rule_is_skipped_witness :
  perform scripted_exec (Allow (Num 80) (Some (js "tcp")))
    (fresh [printed active_report] no_backup)
  = (Resolved (Result.make (js "skipped") (Some (js "80/tcp")) (js "allow")
                 (js "Rule '80/tcp' already exists.")),
     mkState (mkScripted [] no_backup) [js "sudo ufw status"])
  /\ issued (mkState (mkScripted [] no_backup) [js "sudo ufw status"])
     = [] ++ [js "sudo ufw status"].
Proof.
  apply (present_rule_is_skipped scripted scripted_exec
           (Allow (Num 80) (Some (js "tcp")))
           (fresh [printed active_report] no_backup)
           (mkState (mkScripted [] no_backup) [js "sudo ufw status"])
           (trim active_report)).
  - reflexivity.
  - apply includes_substring. reflexivity.
Defined.

Lemma absent_rule_is_added_witness :
  perform scripted_exec (DenyFromIp (js "10.0.0.5") (Some (js "8080")) None)
    (fresh [printed active_report; ok "Rule added"] no_backup)
  = (Resolved (Result.make (js "success")
                 (Some (js "from 10.0.0.5 to any port 8080")) (js "deny")
                 (js "Rule added")),
     mkState (mkScripted [] no_backup)
       [js "sudo ufw status";
        js "sudo ufw deny from 10.0.0.5 to any port 8080"]).
Proof.
  refine (proj2 (absent_rule_is_added scripted scripted_exec
                   (DenyFromIp (js "10.0.0.5") (Some (js "8080")) None)
                   (fresh [printed active_report; ok "Rule added"] no_backup)
                   (mkState (mkScripted [ok "Rule added"] no_backup)
                      [js "sudo ufw status"])
                   (trim active_report) _ _)
            (ok "Rule added") (mkScripted [] no_backup) _ _).
  - reflexivity.
  - apply includes_absent. reflexivity.
  - reflexivity.
  - reflexivity.
Defined.

Lemma portRule_injective_without_slash_witness :
  toString (Num 80) = toString (Str (js "80"))
  /\ orDefault (Some (js "tcp")) = orDefault (Some (js "tcp")).
Proof.
  apply (portRule_injective_without_slash
           (Num 80) (Str (js "80")) (Some (js "tcp")) (Some (js "tcp"))).
  - intros H. vm_compute in H. intuition discriminate.
  - intros H. vm_compute in H. intuition discriminate.
  - reflexivity.
Defined.

Lemma isEnabled_iff_active_witness :
  isEnabled scripted_exec (fresh [printed active_report] no_backup)
  = (Resolved true, mkState (mkScripted [] no_backup) [js "sudo ufw status"]).
Proof.
  refine (proj1 (isEnabled_iff_active scripted scripted_exec
                   (fresh [printed active_report] no_backup)
                   (mkState (mkScripted [] no_backup) [js "sudo ufw status"])
                   (trim active_report) _) _).
  - reflexivity.
  - apply includes_substring. reflexivity.
Defined.

Lemma isEnabled_on_inactive_witness :
  isEnabled scripted_exec (fresh [printed inactive_report] no_backup)
  = (Resolved true, mkState (mkScripted [] no_backup) [js "sudo ufw status"]).
Proof.
  apply (isEnabled_on_inactive scripted scripted_exec
           (fresh [printed inactive_report] no_backup)
           (mkState (mkScripted [] no_backup) [js "sudo ufw status"])
           (js "Status: inactive")).
  - reflexivity.
  - exists (js "Status: "), []. reflexivity.
Defined.

Lemma restore_issues_nonblank_lines_witness :
  restore scripted_exec scripted_read (js "backup.rules")
    (fresh [ok "Resetting all rules to installed defaults"; ok "Rule added";
            ok "Rule added"; ok "Rule added"] (inr backup_rules))
  = (Resolved (Result.make (js "success") None (js "restore")
                 (js "Restored from backup.rules.")),
     mkState (mkScripted [] (inr backup_rules))
       [js "sudo ufw reset && sudo ufw allow from any";
        js "sudo ufw allow 80/tcp"; js "sudo ufw deny 22";
        js "sudo ufw reject 443"]).
Proof.
  refine (proj1 (proj2 (restore_issues_nonblank_lines scripted scripted_exec
                   scripted_read (js "backup.rules") backup_rules
                   (fresh [ok "Resetting all rules to installed defaults";
                           ok "Rule added"; ok "Rule added"; ok "Rule added"]
                      (inr backup_rules))
                   (ok "Resetting all rules to installed defaults")
                   (mkScripted [ok "Rule added"; ok "Rule added"; ok "Rule added"]
                      (inr backup_rules))
                   _ _ _)) _); reflexivity.
Defined.

Lemma restore_stops_at_failure_witness :
  restore scripted_exec scripted_read (js "backup.rules")
    (fresh [ok "Resetting all rules to installed defaults"; ok "Rule added";
            failed "ERROR: Need 'to' or 'from' clause"; ok "Rule added"]
       (inr backup_rules))
  = (Rejected (RejectedWith (js "Error: ERROR: Need 'to' or 'from' clause")),
     mkState (mkScripted [ok "Rule added"] (inr backup_rules))
       [js "sudo ufw reset && sudo ufw allow from any";
        js "sudo ufw allow 80/tcp"; js "sudo ufw deny 22"]).
Proof.
  refine (restore_stops_at_failure scripted scripted_exec scripted_read
            (js "backup.rules") backup_rules
            (js "allow 80/tcp") (js "  deny 22  ") (js "reject 443")
            (fresh [ok "Resetting all rules to installed defaults";
                    ok "Rule added";
                    failed "ERROR: Need 'to' or 'from' clause"; ok "Rule added"]
               (inr backup_rules))
            (ok "Resetting all rules to installed defaults")
            (ok "Rule added")
            (failed "ERROR: Need 'to' or 'from' clause")
            (mkScripted [ok "Rule added";
                         failed "ERROR: Need 'to' or 'from' clause";
                         ok "Rule added"] (inr backup_rules))
            (mkScripted [failed "ERROR: Need 'to' or 'from' clause";
                         ok "Rule added"] (inr backup_rules))
            (mkScripted [ok "Rule added"] (inr backup_rules))
            _ _ _ _ _ _ _ _); reflexivity.
Defined.

Lemma restore_resets_before_reading_witness :
  restore scripted_exec scripted_read (js "backup.rules")
    (fresh [ok "Resetting all rules to installed defaults"] no_backup)
  = (Rejected
       (FsError (js "ENOENT: no such file or directory, open 'backup.rules'")),
     mkState (mkScripted [] no_backup)
       [js "sudo ufw reset && sudo ufw allow from any"]).
Proof.
  refine (proj1 (restore_resets_before_reading scripted scripted_exec
                   scripted_read (js "backup.rules")
                   (js "ENOENT: no such file or directory, open 'backup.rules'")
                   (fresh [ok "Resetting all rules to installed defaults"]
                      no_backup)
                   (ok "Resetting all rules to installed defaults")
                   (mkScripted [] no_backup)
                   _ _ _)); reflexivity.
Defined.

(** C9, as stated, fails: [ufw status] ends its output with a newline, and
    [status] resolves to the output without it. *)
Lemma status_is_not_verbatim :
  scripted_exec (js "sudo ufw status")
    (world (fresh [printed active_report] no_backup))
  = (printed active_report, mkScripted [] no_backup)
  /\ error (printed active_report) = false
  /\ fst (status scripted_exec (fresh [printed active_report] no_backup))
     <> Resolved (stdout (printed active_report)).
Proof.
  split; [reflexivity|]. split; [reflexivity|].
  intros H. vm_compute in H. discriminate H.
Qed.

Lemma status_is_trimmed_output_witness :
  status scripted_exec (fresh [printed active_report] no_backup)
  = (Resolved (trim active_report),
     mkState (mkScripted [] no_backup) [js "sudo ufw status"]).
Proof.
  refine (proj1 (status_is_trimmed_output scripted scripted_exec
                   (fresh [printed active_report] no_backup)
                   (printed active_report) (mkScripted [] no_backup)
                   _ _)); reflexivity.
Defined.

Lemma failed_status_query_propagates_witness :
  perform scripted_exec (Reject (Str (js "ssh")) None)
    (fresh [failed "sudo: a password is required"] no_backup)
  = (Rejected (RejectedWith (js "Error: sudo: a password is required")),
     mkState (mkScripted [] no_backup) [js "sudo ufw status"]).
Proof.
  refine (proj1 (failed_status_query_propagates scripted scripted_exec
                   (Reject (Str (js "ssh")) None)
                   (fresh [failed "sudo: a password is required"] no_backup)
                   (mkState (mkScripted [] no_backup) [js "sudo ufw status"])
                   (RejectedWith (js "Error: sudo: a password is required"))
                   _)); reflexivity.
Defined.

Lemma portRule_injective_on_numbers_witness :
  80%N = 80%N /\ orDefault (Some (js "udp")) = orDefault (Some (js "udp")).
Proof.
  apply (portRule_injective_on_numbers 80 80 (Some (js "udp")) (Some (js "udp"))).
  reflexivity.
Defined.

Lemma rule_inside_another_is_skipped_witness :
  perform scripted_exec (Allow (Num 8) None)
    (fresh [printed active_report; ok "Rule added"] no_backup)
  = (Resolved (Result.make (js "skipped") (Some (js "8")) (js "allow")
                 (js "Rule '8' already exists.")),
     mkState (mkScripted [ok "Rule added"] no_backup) [js "sudo ufw status"]).
Proof.
  apply (rule_inside_another_is_skipped scripted scripted_exec
           (Allow (Num 8) None)
           (fresh [printed active_report; ok "Rule added"] no_backup)
           (mkState (mkScripted [ok "Rule added"] no_backup)
              [js "sudo ufw status"])
           (trim active_report) (js "80/tcp")).
  - reflexivity.
  - apply includes_substring. reflexivity.
  - exists [], (js "0/tcp"). reflexivity.
Defined.

Lemma ipRule_injective_without_space_witness :
  js "10.0.0.5" = js "10.0.0.5"
  /\ orDefault (Some (js "8080")) = orDefault (Some (js "8080"))
  /\ orDefault None = orDefault (Some (js "")).
Proof.
  apply (ipRule_injective_without_space
           (js "10.0.0.5") (js "10.0.0.5")
           (Some (js "8080")) (Some (js "8080")) None (Some (js ""))).
  - intros H. vm_compute in H. intuition discriminate.
  - intros H. vm_compute in H. intuition discriminate.
  - intros H. vm_compute in H. intuition discriminate.
  - intros H. vm_compute in H. intuition discriminate.
  - reflexivity.
Defined.

Lemma query_text_is_trimmed_witness :
  trim (trim active_report) = trim active_report.
Proof.
  refine (proj1 (query_text_is_trimmed scripted scripted_exec
                   (trim active_report)
                   (fresh [printed active_report] no_backup)
                   (mkState (mkScripted [] no_backup)
                      [js "sudo ufw status numbered"])
                   _)).
  right. reflexivity.
Defined.

Lemma lifecycle_runs_one_command_witness :
  runLifecycle scripted_exec Logging (fresh [ok "Logging enabled"] no_backup)
  = (Resolved (Result.make (js "success") None (js "logging")
                 (js "Logging enabled")),
     mkState (mkScripted [] no_backup) [js "sudo ufw logging on"]).
Proof.
  apply (lifecycle_runs_one_command scripted scripted_exec Logging
           (fresh [ok "Logging enabled"] no_backup)
           (ok "Logging enabled") (mkScripted [] no_backup)).
  reflexivity.
Defined.

Lemma backup_runs_one_redirect_witness :
  backup scripted_exec (js "x.rules") (fresh [printed []] no_backup)
  = (Resolved (Result.make (js "success") None (js "backup")
                 (js "Backup saved to x.rules.")),
     mkState (mkScripted [] no_backup) [js "sudo ufw status > x.rules"]).
Proof.
  apply (backup_runs_one_redirect scripted scripted_exec (js "x.rules")
           (fresh [printed []] no_backup)
           (printed []) (mkScripted [] no_backup)).
  reflexivity.
Defined.

Lemma empty_rule_is_always_skipped_witness :
  perform scripted_exec (Allow (Str (js "")) None)
    (fresh [printed inactive_report] no_backup)
  = (Resolved (Result.make (js "skipped") (Some []) (js "allow")
                 (js "Rule '' already exists.")),
     mkState (mkScripted [] no_backup) [js "sudo ufw status"]).
Proof.
  refine (proj1 (empty_rule_is_always_skipped scripted scripted_exec
                   (Allow (Str (js "")) None)
                   (fresh [printed inactive_report] no_backup)
                   (mkState (mkScripted [] no_backup) [js "sudo ufw status"])
                   (js "Status: inactive") _ _)); reflexivity.
Defined.

Lemma failed_mutation_propagates_witness :
  perform scripted_exec (Allow (Str (js "bogus")) None)
    (fresh [printed active_report; failed "ERROR: Could not find a profile"]
       no_backup)
  = (Rejected (RejectedWith (js "Error: ERROR: Could not find a profile")),
     mkState (mkScripted [] no_backup)
       [js "sudo ufw status"; js "sudo ufw allow bogus"]).
Proof.
  apply (failed_mutation_propagates scripted scripted_exec
           (Allow (Str (js "bogus")) None)
           (fresh [printed active_report;
                   failed "ERROR: Could not find a profile"] no_backup)
           (mkState (mkScripted [failed "ERROR: Could not find a profile"]
                       no_backup) [js "sudo ufw status"])
           (trim active_report)
           (failed "ERROR: Could not find a profile")
           (mkScripted [] no_backup)).
  - reflexivity.
  - apply includes_absent. reflexivity.
  - reflexivity.
  - reflexivity.
Defined.

Lemma resolved_result_tells_what_happened_witness :
  Result.rule (Result.make (js "success") (Some (js "443/tcp")) (js "reject")
                 (js "Rule added"))
  = Some (js "443/tcp").
Proof.
  refine (proj1 (resolved_result_tells_what_happened scripted scripted_exec
                   (Reject (Num 443) (Some (js "tcp")))
                   (fresh [printed active_report; ok "Rule added"] no_backup)
                   (mkState (mkScripted [] no_backup)
                      [js "sudo ufw status"; js "sudo ufw reject 443/tcp"])
                   (Result.make (js "success") (Some (js "443/tcp"))
                      (js "reject") (js "Rule added"))
                   _)).
  reflexivity.
Defined.

Lemma same_rule_skipped_together_witness :
  perform scripted_exec (Deny (Num 80) (Some (js "tcp")))
    (fresh [printed active_report] no_backup)
  = (Resolved (Result.make (js "skipped") (Some (js "80/tcp")) (js "deny")
                 (js "Rule '80/tcp' already exists.")),
     mkState (mkScripted [] no_backup) [js "sudo ufw status"]).
Proof.
  apply (same_rule_skipped_together scripted scripted_exec
           (Allow (Num 80) (Some (js "tcp")))
           (Deny (Num 80) (Some (js "tcp")))
           (fresh [printed active_report] no_backup)
           (mkState (mkScripted [] no_backup) [js "sudo ufw status"])
           (Result.make (js "skipped") (Some (js "80/tcp")) (js "allow")
              (js "Rule '80/tcp' already exists."))); reflexivity.
Defined.

Lemma restore_priming_failure_witness :
  restore scripted_exec scripted_read (js "backup.rules")
    (fresh [failed "sudo: a password is required"; ok "Rule added"]
       (inr backup_rules))
  = (Rejected (RejectedWith (js "Error: sudo: a password is required")),
     mkState (mkScripted [ok "Rule added"] (inr backup_rules))
       [js "sudo ufw reset && sudo ufw allow from any"]).
Proof.
  apply (restore_priming_failure scripted scripted_exec scripted_read
           (js "backup.rules")
           (fresh [failed "sudo: a password is required"; ok "Rule added"]
              (inr backup_rules))
           (failed "sudo: a password is required")
           (mkScripted [ok "Rule added"] (inr backup_rules))); reflexivity.
Defined.

Lemma restore_stops_at_first_failure_witness :
  restore scripted_exec scripted_read (js "backup.rules")
    (fresh [ok "Resetting all rules to installed defaults"; ok "Rule added";
            ok "Rule added"; failed "ERROR: Bad port"] (inr backup_rules))
  = (Rejected (RejectedWith (js "Error: ERROR: Bad port")),
     mkState (mkScripted [] (inr backup_rules))
       [js "sudo ufw reset && sudo ufw allow from any";
        js "sudo ufw allow 80/tcp"; js "sudo ufw deny 22";
        js "sudo ufw reject 443"]).
Proof.
  apply (restore_stops_at_first_failure scripted scripted_exec scripted_read
           (js "backup.rules") backup_rules (js "sudo ufw reject 443")
           [js "sudo ufw allow 80/tcp"; js "sudo ufw deny 22"] []
           (fresh [ok "Resetting all rules to installed defaults";
                   ok "Rule added"; ok "Rule added"; failed "ERROR: Bad port"]
              (inr backup_rules))
           (ok "Resetting all rules to installed defaults")
           (failed "ERROR: Bad port")
           (mkScripted [ok "Rule added"; ok "Rule added";
                        failed "ERROR: Bad port"] (inr backup_rules))
           (mkScripted [] (inr backup_rules))); reflexivity.
Defined.

Lemma restore_of_blank_file_witness :
  restore scripted_exec scripted_read (js "empty.rules")
    (fresh [ok "Resetting all rules to installed defaults"] (inr []))
  = (Resolved (Result.make (js "success") None (js "restore")
                 (js "Restored from empty.rules.")),
     mkState (mkScripted [] (inr []))
       [js "sudo ufw reset && sudo ufw allow from any"]).
Proof.
  apply (restore_of_blank_file scripted scripted_exec scripted_read
           (js "empty.rules") []
           (fresh [ok "Resetting all rules to installed defaults"] (inr []))
           (ok "Resetting all rules to installed defaults")
           (mkScripted [] (inr []))); try reflexivity.
  repeat constructor.
Defined.

Lemma restore_ignores_surrounding_whitespace_witness :
  snd (restore scripted_exec scripted_read_dos (js "backup.rules")
         (fresh [ok "Resetting all rules to installed defaults"; ok "Rule added";
                 ok "Rule added"; ok "Rule added"] (inr backup_rules)))
  = snd (restore scripted_exec scripted_read_dos (js "dos.rules")
           (fresh [ok "Resetting all rules to installed defaults"; ok "Rule added";
                   ok "Rule added"; ok "Rule added"] (inr backup_rules))).
Proof.
  apply (restore_ignores_surrounding_whitespace scripted scripted_exec
           scripted_read_dos (js "backup.rules") (js "dos.rules")
           backup_rules dos_backup_rules).
  - reflexivity.
  - reflexivity.
  - vm_compute.
    apply Forall2_cons;
      [exists [], [CR]; split; [reflexivity | split; reflexivity]|].
    apply Forall2_cons;
      [exists [], [CR]; split; [reflexivity | split; reflexivity]|].
    apply Forall2_cons;
      [exists (js "  "), [CR]; split; [reflexivity | split; reflexivity]|].
    apply Forall2_cons;
      [exists [], [CR]; split; [reflexivity | split; reflexivity]|].
    apply Forall2_nil.
Defined.

Lemma ruleExists_iff_substring_witness :
  ruleExists scripted_exec [] (fresh [printed active_report] no_backup)
  = (Resolved true, mkState (mkScripted [] no_backup) [js "sudo ufw status"]).
Proof.
  refine (proj1 (proj2 (proj2
            (ruleExists_iff_substring scripted scripted_exec
               (js "80/tcp") (trim active_report)
               (fresh [printed active_report] no_backup)
               (mkState (mkScripted [] no_backup) [js "sudo ufw status"])
               _)))).
  reflexivity.
Defined.
